(** * LittleCuteGAN: the loss functions of [losses.py]

    A shallow embedding of the loss modules of [losses.py] and the
    properties of their [forward] methods.

    Numbers.  Tensor entries and Python floats are modelled by the real
    numbers [R]: [1e-3] is [1/1000], [0.01] is [1/100], [torch.sqrt] is
    [sqrt], [torch.pow (., 2)] is the square and [torch.pow (., 0.5)] the
    square root (it is only applied to sums of squares).  Rounding, [inf]
    and [nan] are outside this model; in particular a division agrees with
    the code only where the divisor is not zero, and the theorems that
    depend on a quotient say which sizes they need.

    Tensors.  A batch is a 4-axis array [(N, C, H, W)]: a shape and the
    entry at each index.  Entries at indices outside the shape are never
    read by the operations below.

    Exceptions.  A Python exception is a [raise e] result; expressions
    propagate the first exception met in evaluation order. *)

From Stdlib Require Import Reals Lra Lia ZArith.
From stdpp Require Import base strings gmap.

Open Scope R_scope.

(** ** Exceptions and results *)

Inductive exn : Type :=
  | AttributeError (name : string)
  | ValueError
  | RuntimeError
  | TypeError.

Inductive result (A : Type) : Type :=
  | ok (a : A)
  | raise (e : exn).
Arguments ok {A} a.
Arguments raise {A} e.

#[global] Instance result_ret : MRet result := fun A a => ok a.
#[global] Instance result_bind : MBind result := fun A B f m =>
  match m with ok a => f a | raise e => raise e end.
#[global] Instance result_fmap : FMap result := fun A B f m =>
  match m with ok a => ok (f a) | raise e => raise e end.

(** ** Shapes and tensors *)

Record size : Type := Size { dim0 : nat; dim1 : nat; dim2 : nat; dim3 : nat }.

Record tensor : Type :=
  Tensor { shape : size; item : nat -> nat -> nat -> nat -> R }.

Definition numel (s : size) : nat := (dim0 s * dim1 s * dim2 s * dim3 s)%nat.

(** [rsum n f] is the sum of [f 0 .. f (n-1)]. *)
Fixpoint rsum (n : nat) (f : nat -> R) : R :=
  match n with
  | O => 0
  | S k => rsum k f + f k
  end.

Definition sum4 (s : size) (f : nat -> nat -> nat -> nat -> R) : R :=
  rsum (dim0 s) (fun n => rsum (dim1 s) (fun c =>
    rsum (dim2 s) (fun h => rsum (dim3 s) (fun w => f n c h w)))).

(** ** Broadcasting of elementwise binary operations *)

Definition broadcast_dim (a b : nat) : result nat :=
  if (a =? b)%nat then ok a
  else if (a =? 1)%nat then ok b
  else if (b =? 1)%nat then ok a
  else raise RuntimeError.

Definition broadcast_shapes (s t : size) : result size :=
  d0 ← broadcast_dim (dim0 s) (dim0 t);
  d1 ← broadcast_dim (dim1 s) (dim1 t);
  d2 ← broadcast_dim (dim2 s) (dim2 t);
  d3 ← broadcast_dim (dim3 s) (dim3 t);
  ok (Size d0 d1 d2 d3).

(** An axis of size 1 is read at index 0 whatever the index asked for. *)
Definition bidx (d i : nat) : nat := if (d =? 1)%nat then O else i.

Definition expand_item (x : tensor) (n c h w : nat) : R :=
  item x (bidx (dim0 (shape x)) n) (bidx (dim1 (shape x)) c)
         (bidx (dim2 (shape x)) h) (bidx (dim3 (shape x)) w).

Definition binop (op : R -> R -> R) (x y : tensor) : result tensor :=
  s ← broadcast_shapes (shape x) (shape y);
  ok (Tensor s (fun n c h w => op (expand_item x n c h w) (expand_item y n c h w))).

Definition lift2 (op : R -> R -> R) (a b : result tensor) : result tensor :=
  x ← a; y ← b; binop op x y.

Definition tmap (f : R -> R) (a : result tensor) : result tensor :=
  (fun x => Tensor (shape x) (fun n c h w => f (item x n c h w))) <$> a.

Declare Scope tensor_scope.
Delimit Scope tensor_scope with T.
Notation "a - b" := (lift2 Rminus a b) : tensor_scope.
Notation "a + b" := (lift2 Rplus a b) : tensor_scope.
Notation "a * b" := (lift2 Rmult a b) : tensor_scope.
Notation "a / b" := (lift2 Rdiv a b) : tensor_scope.
(** tensor-with-Python-number operations *)
Notation "a +. s" := (tmap (fun v => v + s) a) (at level 50, left associativity) : tensor_scope.
Notation "a /. s" := (tmap (fun v => v / s) a) (at level 40, left associativity) : tensor_scope.

(** ** The [torch] functions the losses call *)

Definition torch_sqrt : result tensor -> result tensor := tmap sqrt.
Definition torch_abs : result tensor -> result tensor := tmap Rabs.
Definition torch_pow2 : result tensor -> result tensor := tmap (fun v => v ^ 2).
Definition torch_pow_half : result tensor -> result tensor := tmap sqrt.

(** [t.sum()] *)
Definition tsum (x : tensor) : R := sum4 (shape x) (item x).
Definition torch_sum (a : result tensor) : result R := tsum <$> a.

(** [torch.mean(t)] over all elements *)
Definition tmean (x : tensor) : R := tsum x / INR (numel (shape x)).
Definition torch_mean (a : result tensor) : result R := tmean <$> a.

(** ** [CharbonnierLoss] *)

Record CharbonnierLoss : Type := { eps : R }.

(** [__init__(self, eps=1e-3)] *)
Definition CharbonnierLoss_init (eps : R) : CharbonnierLoss := {| eps := eps |}.
Definition CharbonnierLoss_default : CharbonnierLoss := CharbonnierLoss_init (1 / 1000).

Definition CharbonnierLoss_forward (self : CharbonnierLoss) (x y : tensor) : result R :=
  let diff := (ok x - ok y)%T in
  let loss := torch_mean (torch_sqrt ((diff * diff) +. (eps self * eps self))%T) in
  loss.

(** ** Slicing and [TVLoss] *)

(** A slice bound [k] on an axis of length [len], as Python normalises it:
    a negative bound counts from the end, and the result is clamped to
    [0 .. len]. *)
Definition py_bound (len : nat) (k : Z) : nat :=
  Z.to_nat (Z.min (Z.max 0 (if (k <? 0)%Z then k + Z.of_nat len else k)) (Z.of_nat len)).

(** [x[:, :, lo:hi, :]] and [x[:, :, :, lo:hi]] for normalised bounds *)
Definition slice2 (lo hi : nat) (x : tensor) : tensor :=
  Tensor (Size (dim0 (shape x)) (dim1 (shape x)) (hi - lo) (dim3 (shape x)))
         (fun n c h w => item x n c (lo + h)%nat w).

Definition slice3 (lo hi : nat) (x : tensor) : tensor :=
  Tensor (Size (dim0 (shape x)) (dim1 (shape x)) (dim2 (shape x)) (hi - lo))
         (fun n c h w => item x n c h (lo + w)%nat).

Record TVLoss : Type := { tv_loss_weight : R }.

(** [__init__(self, tv_loss_weight=1)] *)
Definition TVLoss_init (tv_loss_weight : R) : TVLoss :=
  {| tv_loss_weight := tv_loss_weight |}.

Definition tensor_size (t : tensor) : nat :=
  (dim1 (shape t) * dim2 (shape t) * dim3 (shape t))%nat.

Definition TVLoss_batch_size (x : tensor) : nat := dim0 (shape x).

Definition TVLoss_count_h (x : tensor) : nat :=
  let h_x := dim2 (shape x) in
  tensor_size (slice2 (py_bound h_x 1) h_x x).

Definition TVLoss_count_w (x : tensor) : nat :=
  let w_x := dim3 (shape x) in
  tensor_size (slice3 (py_bound w_x 1) w_x x).

Definition TVLoss_h_tv (x : tensor) : result R :=
  let h_x := dim2 (shape x) in
  torch_sum (torch_pow2 (ok (slice2 (py_bound h_x 1) h_x x)
                         - ok (slice2 0 (py_bound h_x (Z.of_nat h_x - 1)) x))%T).

Definition TVLoss_w_tv (x : tensor) : result R :=
  let w_x := dim3 (shape x) in
  torch_sum (torch_pow2 (ok (slice3 (py_bound w_x 1) w_x x)
                         - ok (slice3 0 (py_bound w_x (Z.of_nat w_x - 1)) x))%T).

Definition TVLoss_forward (self : TVLoss) (x : tensor) : result R :=
  let batch_size := TVLoss_batch_size x in
  let count_h := TVLoss_count_h x in
  let count_w := TVLoss_count_w x in
  h_tv ← TVLoss_h_tv x;
  w_tv ← TVLoss_w_tv x;
  ok (tv_loss_weight self * 2 * (h_tv / INR count_h + w_tv / INR count_w) / INR batch_size).

(** ** [ExposureLoss] *)

(** The instance attributes are kept as the dictionary [__init__] fills:
    [forward] reads an attribute that [__init__] may not have set. *)
Inductive attr : Type :=
  | AInt (z : Z)
  | AFloat (r : R)
  | AModule (f : tensor -> result tensor).

Definition getattr (self : gmap string attr) (name : string) : result attr :=
  match self !! name with
  | Some a => ok a
  | None => raise (AttributeError name)
  end.

Definition call (a : attr) (x : tensor) : result tensor :=
  match a with
  | AModule f => f x
  | _ => raise TypeError
  end.

Definition as_float (a : attr) : result R :=
  match a with
  | AFloat r => ok r
  | AInt z => ok (IZR z)
  | AModule _ => raise TypeError
  end.

(** [__init__(self, patch_size=16, mean_val=0.7)] *)
Definition ExposureLoss_init (patch_size : Z) (mean_val : R) : gmap string attr :=
  <["mean_val" := AFloat mean_val]> (<["patch_size" := AInt patch_size]> ∅).

(** [torch.mean(x, 1, keepdim=True)] *)
Definition torch_mean_dim1 (x : tensor) : tensor :=
  Tensor (Size (dim0 (shape x)) 1 (dim2 (shape x)) (dim3 (shape x)))
         (fun n _ h w => rsum (dim1 (shape x)) (fun c => item x n c h w)
                         / INR (dim1 (shape x))).

(** [torch.FloatTensor([v])], as it broadcasts against a batch *)
Definition FloatTensor1 (v : R) : tensor := Tensor (Size 1 1 1 1) (fun _ _ _ _ => v).

Section Exposure.

(** [Tensor.cuda()]: the copy of a tensor on the CUDA device.  What it does
    depends on the host (it raises where there is no CUDA device), which is
    outside this repository.  Devices are not part of the tensor model. *)
Variable cuda : tensor -> result tensor.

Definition ExposureLoss_forward (self : gmap string attr) (x : tensor) : result R :=
  let x := torch_mean_dim1 x in
  pool ← getattr self "pool";
  mean ← call pool x;
  mean_val ← getattr self "mean_val" ≫= as_float;
  target ← cuda (FloatTensor1 mean_val);
  d ← torch_mean (torch_pow2 (ok mean - ok target)%T);
  ok d.

End Exposure.

(** ** [ColorLoss] and [ColorLoss1] *)

(** [torch.split(x, 1, dim=1)]: chunks of one channel (a single empty
    chunk when there is no channel). *)
Definition channel_chunk (x : tensor) (i : nat) : tensor :=
  Tensor (Size (dim0 (shape x)) (Nat.min 1 (dim1 (shape x) - i))
               (dim2 (shape x)) (dim3 (shape x)))
         (fun n c h w => item x n (i + c)%nat h w).

Definition torch_split1 (x : tensor) : list tensor :=
  map (channel_chunk x) (seq 0 (Nat.max 1 (dim1 (shape x)))).

(** [a, b, c = t] *)
Definition unpack3 {A : Type} (l : list A) : result (A * A * A) :=
  match l with
  | [a; b; c] => ok (a, b, c)
  | _ => raise ValueError
  end.

(** [torch.mean(x, [2, 3], keepdim=True)] *)
Definition torch_mean_dim23 (x : tensor) : tensor :=
  Tensor (Size (dim0 (shape x)) (dim1 (shape x)) 1 1)
         (fun n c _ _ => rsum (dim2 (shape x)) (fun h =>
                           rsum (dim3 (shape x)) (fun w => item x n c h w))
                         / INR (dim2 (shape x) * dim3 (shape x))).

Definition ColorLoss_forward (x : tensor) : result R :=
  '(r, g, b) ← unpack3 (torch_split1 x);
  let mean_rgb := torch_mean_dim23 x in
  '(mr, mg, mb) ← unpack3 (torch_split1 mean_rgb);
  let Dr := (ok r - ok mr)%T in
  let Dg := (ok g - ok mg)%T in
  let Db := (ok b - ok mb)%T in
  let k := torch_pow_half (torch_pow2 Dr + torch_pow2 Db + torch_pow2 Dg)%T in
  torch_mean k.

(** The names of the [torch] namespace that [losses.py] refers to and that
    exist there.  [torch.spiit] and [torch.arcos] do not. *)
Definition torch_names : gset string :=
  list_to_set ["split"; "mean"; "pow"; "sqrt"; "abs"; "roll"; "sum"; "cat";
               "acos"; "arccos"; "FloatTensor"]%string.

Definition torch_getattr (name : string) : result unit :=
  if decide (name ∈ torch_names) then ok tt else raise (AttributeError name).

(** Lines 216 to 221 of [ColorLoss1.forward]: the tensor handed to the
    arc cosine. *)
Definition ColorLoss1_cos (r1 g1 b1 r2 g2 b2 : tensor) : result tensor :=
  let k1 := (ok r1 * ok r2 + ok g1 * ok g2 + ok b1 * ok b2)%T in
  let k2 := torch_pow_half (torch_pow2 (ok r1) + torch_pow2 (ok g1) + torch_pow2 (ok b1))%T in
  let k3 := torch_pow_half (torch_pow2 (ok r2) + torch_pow2 (ok g2) + torch_pow2 (ok b2))%T in
  let cos := (k1 / (k2 * k3))%T in
  cos.

Definition ColorLoss1_forward (x y : tensor) : result R :=
  _ ← torch_getattr "split";
  '(r1, g1, b1) ← unpack3 (torch_split1 x);
  _ ← torch_getattr "spiit";
  '(r2, g2, b2) ← unpack3 (torch_split1 y);
  cos ← ColorLoss1_cos r1 g1 b1 r2 g2 b2;
  _ ← torch_getattr "mean";
  _ ← torch_getattr "arcos";
  torch_mean (tmap acos (ok cos)).

(** ** [UnionLoss] *)

(** [torch.roll]: the entry at index [i] comes from index [i - k] modulo
    the length of the axis. *)
Definition roll_idx (len k i : nat) : nat := ((i + (len - k mod len)) mod len)%nat.
Arguments roll_idx : simpl never.

Definition torch_roll (x : tensor) (shifts dims : nat) : tensor :=
  Tensor (shape x)
    (fun n c h w =>
       match dims with
       | 0%nat => item x (roll_idx (dim0 (shape x)) shifts n) c h w
       | 1%nat => item x n (roll_idx (dim1 (shape x)) shifts c) h w
       | 2%nat => item x n c (roll_idx (dim2 (shape x)) shifts h) w
       | _ => item x n c h (roll_idx (dim3 (shape x)) shifts w)
       end).

(** The sum of the seven [|roll(t, k, dims) - t|] maps of one batch. *)
Definition UnionLoss_shifts (t : tensor) (dims : nat) : result tensor :=
  let t_roll2 := torch_roll t 2 dims in
  let t_roll4 := torch_roll t 4 dims in
  let t_roll8 := torch_roll t 8 dims in
  let t_roll16 := torch_roll t 16 dims in
  let t_roll32 := torch_roll t 32 dims in
  let t_roll64 := torch_roll t 64 dims in
  let t_roll128 := torch_roll t 128 dims in
  (torch_abs (ok t_roll2 - ok t) + torch_abs (ok t_roll4 - ok t)
   + torch_abs (ok t_roll8 - ok t) + torch_abs (ok t_roll16 - ok t)
   + torch_abs (ok t_roll32 - ok t) + torch_abs (ok t_roll64 - ok t)
   + torch_abs (ok t_roll128 - ok t))%T.

Definition UnionLoss_forward (x y : tensor) : result R :=
  let x_ := UnionLoss_shifts x 2 in
  let y_ := UnionLoss_shifts y 2 in
  let x__ := UnionLoss_shifts x 3 in
  let y__ := UnionLoss_shifts y 3 in
  let k := (fun m => m / 2) <$>
             torch_mean (torch_abs (x_ - y_) /. 7 + torch_abs (x__ - y__) /. 7)%T in
  k.

(** ** [MyLoss] *)

(** What [print] writes: the two sub-losses. *)
Record diagnostic : Type := Diagnostic { d_l1_loss : R; d_ssim_loss : R }.

Record MyLoss : Type := {
  l1_module : CharbonnierLoss;
  ssim_module : tensor -> tensor -> result R;
  tv_module : TVLoss;
  exp_module : gmap string attr
}.

Section Composite.

(** [pytorch_msssim.SSIM(data_range=1.0, size_average=True, channel=3,
    nonnegative_ssim=True)]: the structural-similarity index, a library
    outside this repository. *)
Variable SSIM : tensor -> tensor -> result R.

Definition MyLoss_init : MyLoss :=
  {| l1_module := CharbonnierLoss_default;
     ssim_module := SSIM;
     tv_module := TVLoss_init 1;
     exp_module := ExposureLoss_init 16 (7 / 10) |}.

(** The result is the returned loss and the records printed. *)
Definition MyLoss_forward (self : MyLoss) (x y : tensor) (epoch : Z)
  : result (R * list diagnostic) :=
  l1_loss ← CharbonnierLoss_forward (l1_module self) x y;
  s ← ssim_module self x y;
  let ssim_loss := 1 - s in
  let loss := l1_loss + 1 / 100 * ssim_loss in
  let printed :=
    if (epoch mod 3 =? 1)%Z then [Diagnostic l1_loss ssim_loss] else [] in
  ok (loss, printed).

End Composite.

(** ** Closed forms used in the statements *)

(** The indices of a shape. *)
Definition in_range (s : size) (n c h w : nat) : Prop :=
  (n < dim0 s)%nat /\ (c < dim1 s)%nat /\ (h < dim2 s)%nat /\ (w < dim3 s)%nat.

(** Two shapes broadcast together when, on every axis, the sizes are equal
    or one of them is 1. *)
Definition compatible (a b : nat) : Prop := a = b \/ a = 1%nat \/ b = 1%nat.

Definition broadcastable (s t : size) : Prop :=
  compatible (dim0 s) (dim0 t) /\ compatible (dim1 s) (dim1 t) /\
  compatible (dim2 s) (dim2 t) /\ compatible (dim3 s) (dim3 t).

(** The value [CharbonnierLoss.forward] computes on batches of one shape:
    the mean of [sqrt ((x - y)^2 + eps^2)] over all entries. *)
Definition charbonnier_value (e : R) (x y : tensor) : R :=
  sum4 (shape x)
    (fun n c h w =>
       sqrt ((item x n c h w - item y n c h w) * (item x n c h w - item y n c h w)
             + e * e))
  / INR (numel (shape x)).

(** The value [CharbonnierLoss.forward] computes when the two shapes
    broadcast to [s]. *)
Definition charbonnier_broadcast_value (e : R) (s : size) (x y : tensor) : R :=
  sum4 s
    (fun n c h w =>
       sqrt ((expand_item x n c h w - expand_item y n c h w)
             * (expand_item x n c h w - expand_item y n c h w) + e * e))
  / INR (numel s).

(** The sums of squared differences between vertically and between
    horizontally adjacent entries. *)
Definition tv_h_sum (x : tensor) : R :=
  sum4 (Size (dim0 (shape x)) (dim1 (shape x)) (dim2 (shape x) - 1) (dim3 (shape x)))
       (fun n c h w => (item x n c (1 + h)%nat w - item x n c h w) ^ 2).

Definition tv_w_sum (x : tensor) : R :=
  sum4 (Size (dim0 (shape x)) (dim1 (shape x)) (dim2 (shape x)) (dim3 (shape x) - 1))
       (fun n c h w => (item x n c h (1 + w)%nat - item x n c h w) ^ 2).

(** The mean of channel [c] of image [n], and the value
    [ColorLoss.forward] computes on a 3-channel batch: the mean, over
    images and pixels, of the Euclidean norm of the three deviations from
    the channel means. *)
Definition channel_mean (x : tensor) (n c : nat) : R :=
  rsum (dim2 (shape x)) (fun h => rsum (dim3 (shape x)) (fun w => item x n c h w))
  / INR (dim2 (shape x) * dim3 (shape x)).

Definition color_value (x : tensor) : R :=
  sum4 (Size (dim0 (shape x)) 1 (dim2 (shape x)) (dim3 (shape x)))
    (fun n _ h w =>
       sqrt ((item x n 0%nat h w - channel_mean x n 0%nat) ^ 2
             + (item x n 2%nat h w - channel_mean x n 2%nat) ^ 2
             + (item x n 1%nat h w - channel_mean x n 1%nat) ^ 2))
  / INR (dim0 (shape x) * 1 * dim2 (shape x) * dim3 (shape x)).

(** [s * x] for a Python number [s] *)
Definition scale (s : R) (x : tensor) : tensor :=
  Tensor (shape x) (fun n c h w => s * item x n c h w).

(** A flat-colour batch: within each image, every channel is constant. *)
Definition flat_colour (x : tensor) : Prop :=
  forall n c h w, in_range (shape x) n c h w -> item x n c h w = item x n c 0%nat 0%nat.

(** The Euclidean norm of the RGB vector at pixel [(h, w)] of image [n]. *)
Definition rgb_norm (x : tensor) (n h w : nat) : R :=
  sqrt (item x n 0%nat h w ^ 2 + item x n 1%nat h w ^ 2 + item x n 2%nat h w ^ 2).

(** The shift distances of [UnionLoss.forward], and the sum over them, at
    one entry, of [|roll(t, k, dims) - t|]. *)
Definition UnionLoss_distances : list nat := [2; 4; 8; 16; 32; 64; 128]%nat.

Definition shift_sum (t : tensor) (dims : nat) (n c h w : nat) : R :=
  fold_right Rplus 0
    (map (fun k => Rabs (item (torch_roll t k dims) n c h w - item t n c h w))
         UnionLoss_distances).

(** The value [UnionLoss.forward] computes on batches of one shape. *)
Definition union_value (x y : tensor) : R :=
  sum4 (shape x)
    (fun n c h w =>
       Rabs (shift_sum x 2 n c h w - shift_sum y 2 n c h w) / 7
       + Rabs (shift_sum x 3 n c h w - shift_sum y 3 n c h w) / 7)
  / INR (numel (shape x)) / 2.

(** ** Concrete batches *)

(** [torch.full(s, v)] *)
Definition full (s : size) (v : R) : tensor := Tensor s (fun _ _ _ _ => v).

(** Batches of mid grey. *)
Definition grey_1x3x2x2 : tensor := full (Size 1 3 2 2) (1 / 2).
Definition grey_1x3x4x4 : tensor := full (Size 1 3 4 4) (1 / 2).

(** Black batches of one and of two images. *)
Definition black_1x3x2x2 : tensor := full (Size 1 3 2 2) 0.
Definition black_2x3x2x2 : tensor := full (Size 2 3 2 2) 0.

(** A 1x1x2x2 image whose first row is 0 and whose second row is 1. *)
Definition step_1x1x2x2 : tensor :=
  Tensor (Size 1 1 2 2) (fun _ _ h _ => match h with O => 0 | S _ => 1 end).

(** A 1x3x1x2 image: red is 0 then 1, green and blue are 0. *)
Definition red_ramp_1x3x1x2 : tensor :=
  Tensor (Size 1 3 1 2)
    (fun _ c _ w => match c, w with O, S _ => 1 | _, _ => 0 end).

(** A 1x3x2x2 image of one orange colour. *)
Definition orange_1x3x2x2 : tensor :=
  Tensor (Size 1 3 2 2)
    (fun _ c _ _ => match c with O => 1 | S O => 1 / 2 | _ => 0 end).

(** A 1x3x4x4 batch whose entries differ along both axes. *)
Definition ramp_1x3x4x4 : tensor :=
  Tensor (Size 1 3 4 4) (fun _ c h w => INR (c + 2 * h + 3 * w)).

(** A stand-in for the external SSIM module in closed examples: it reports
    the similarity [1 / 2] for every pair. *)
Definition SSIM_half (x y : tensor) : result R := ok (1 / 2).

(** * The rest of [losses.py] *)

(** ** Further closed forms and batch operations *)

(** The mean absolute difference of two batches of one shape (the L1
    distance that the Charbonnier loss smooths). *)
Definition l1_mean (x y : tensor) : R :=
  sum4 (shape x) (fun n c h w => Rabs (item x n c h w - item y n c h w))
  / INR (numel (shape x)).

(** [x + v] for a Python number [v] *)
Definition add_scalar (v : R) (x : tensor) : tensor :=
  Tensor (shape x) (fun n c h w => item x n c h w + v).

(** [x + o] for an offset [o] of shape [(N, C, 1, 1)]: one number per image
    and channel. *)
Definition add_channel_offset (o : nat -> nat -> R) (x : tensor) : tensor :=
  Tensor (shape x) (fun n c h w => item x n c h w + o n c).

(** The sizes on which the divisors of [TVLoss.forward] are not zero. *)
Definition tv_sizes_ok (x : tensor) : Prop :=
  (1 <= dim0 (shape x))%nat /\ (1 <= dim1 (shape x))%nat /\
  (2 <= dim2 (shape x))%nat /\ (2 <= dim3 (shape x))%nat.

(** ** The function [tv_loss] *)

(** [torch.pow(t, beta)] for a Python number [beta], on entries that are
    not negative: [v ** beta] is [exp (beta * ln v)] for [v > 0], and
    [0 ** beta] is 0 for [beta > 0] and 1 for [beta = 0].  (A negative
    [beta] at [v = 0] gives [inf], outside the model.) *)
Definition rpow (v beta : R) : R :=
  if Req_dec_T v 0 then (if Req_dec_T beta 0 then 1 else 0) else Rpower v beta.

Definition torch_pow (beta : R) : result tensor -> result tensor :=
  tmap (fun v => rpow v beta).

(** [t[:, :, start:]], [t[:, :, :stop]], [t[:, :, :, start:]] and
    [t[:, :, :, :stop]] *)
Definition slice2_from (start : Z) (t : tensor) : tensor :=
  slice2 (py_bound (dim2 (shape t)) start) (dim2 (shape t)) t.
Definition slice2_to (stop : Z) (t : tensor) : tensor :=
  slice2 0 (py_bound (dim2 (shape t)) stop) t.
Definition slice3_from (start : Z) (t : tensor) : tensor :=
  slice3 (py_bound (dim3 (shape t)) start) (dim3 (shape t)) t.
Definition slice3_to (stop : Z) (t : tensor) : tensor :=
  slice3 0 (py_bound (dim3 (shape t)) stop) t.

(** [tv_loss(x, beta=0.5, reg_coeff=5)] *)
Definition tv_loss (x : tensor) (beta reg_coeff : R) : result R :=
  let dh := torch_pow2 (ok (slice3_from 1 x) - ok (slice3_to (-1) x))%T in
  let dw := torch_pow2 (ok (slice2_from 1 x) - ok (slice2_to (-1) x))%T in
  let '(a, b, c, d) :=
    (dim0 (shape x), dim1 (shape x), dim2 (shape x), dim3 (shape x)) in
  total ← torch_sum (torch_pow beta ((slice2_to (-1) <$> dh) + (slice3_to (-1) <$> dw))%T);
  ok (reg_coeff * (total / INR (a * b * c * d))).

Definition tv_loss_default (x : tensor) : result R := tv_loss x (1 / 2) 5.

(** The sum [tv_loss] takes: over the entries that have a right and a lower
    neighbour, the squared differences to both, added and raised to
    [beta]. *)
Definition tv_sq_diffs (x : tensor) (n c h w : nat) : R :=
  (item x n c h (1 + w)%nat - item x n c h w) ^ 2
  + (item x n c (1 + h)%nat w - item x n c h w) ^ 2.

Definition tv_sum (x : tensor) (beta : R) : R :=
  sum4 (Size (dim0 (shape x)) (dim1 (shape x)) (dim2 (shape x) - 1) (dim3 (shape x) - 1))
       (fun n c h w => rpow (tv_sq_diffs x n c h w) beta).

(** A 1x1x2x2 image whose columns are 0 and 1 in the first row and 1 and 1
    in the second. *)
Definition corner_1x1x2x2 : tensor :=
  Tensor (Size 1 1 2 2)
    (fun _ _ h w => match h, w with O, O => 0 | _, _ => 1 end).

(** A 1x3x2x2 batch whose entries differ along both axes. *)
Definition ramp_1x3x2x2 : tensor :=
  Tensor (Size 1 3 2 2) (fun _ c h w => INR (c + 2 * h + 3 * w)).

(** ** [MixLoss] *)

Record MixLoss : Type := { MixLoss_eps : R; alpha : R }.

(** [__init__(self, alpha=0.8, eps=1e-6, window_size=11, size_average=True)]:
    only [eps] and [alpha] are stored. *)
Definition MixLoss_init (alpha eps : R) : MixLoss :=
  {| MixLoss_eps := eps; alpha := alpha |}.
Definition MixLoss_default : MixLoss := MixLoss_init (8 / 10) (1 / 1000000).

Section Mix.

(** [pytorch_msssim.SSIM(data_range=1., size_average=True, channel=3)],
    which [forward] builds at every call: a library outside this
    repository. *)
Variable SSIM : tensor -> tensor -> result R.

(** [forward(self, x, y, epoch=None)] *)
Definition MixLoss_forward (self : MixLoss) (x y : tensor) (epoch : option Z)
  : result R :=
  let diff := (ok x - ok y)%T in
  l1_loss ← torch_mean
              (torch_sqrt ((diff * diff) +. (MixLoss_eps self * MixLoss_eps self))%T);
  s ← SSIM x y;
  let ssim_loss := 1 - s in
  let loss := (1 - alpha self) * l1_loss + alpha self * ssim_loss in
  ok loss.

End Mix.

(** ** [VGGPerceptualLoss] *)

(** [t.repeat(1, 3, 1, 1)]: the channels three times over. *)
Definition repeat_channels (t : tensor) : tensor :=
  Tensor (Size (dim0 (shape t)) (3 * dim1 (shape t)) (dim2 (shape t)) (dim3 (shape t)))
         (fun n c h w => item t n (c mod dim1 (shape t))%nat h w).

(** [torch.tensor([v0, v1, v2]).view(1, 3, 1, 1)] *)
Definition channel_buffer (v0 v1 v2 : R) : tensor :=
  Tensor (Size 1 3 1 1)
    (fun _ c _ _ => match c with O => v0 | S O => v1 | _ => v2 end).

(** [torch.nn.functional.l1_loss(x, y)], with the default mean reduction *)
Definition l1_loss (x y : tensor) : result R :=
  torch_mean (torch_abs (ok x - ok y)%T).

(** Tensors of three axes [(B, I, J)] are kept as batches of shape
    [(1, B, I, J)]: elementwise operations align the trailing axes, so they
    broadcast and average alike. *)

(** [t.reshape(t.shape[0], t.shape[1], -1)]: the last axis cannot be
    inferred when the first two leave no entry. *)
Definition reshape_flat (t : tensor) : result tensor :=
  if (dim0 (shape t) * dim1 (shape t) =? 0)%nat then raise RuntimeError
  else ok (Tensor (Size 1 (dim0 (shape t)) (dim1 (shape t))
                        (dim2 (shape t) * dim3 (shape t)))
             (fun _ n c k => item t n c (k / dim3 (shape t))%nat
                                        (k mod dim3 (shape t))%nat)).

(** [a.permute(0, 2, 1)] *)
Definition permute_021 (a : tensor) : tensor :=
  Tensor (Size 1 (dim1 (shape a)) (dim3 (shape a)) (dim2 (shape a)))
         (fun _ n k c => item a 0%nat n c k).

(** [a @ b] for tensors of three axes *)
Definition matmul (a b : tensor) : result tensor :=
  if negb (dim3 (shape a) =? dim2 (shape b))%nat then raise RuntimeError
  else
    batch ← broadcast_dim (dim1 (shape a)) (dim1 (shape b));
    ok (Tensor (Size 1 batch (dim2 (shape a)) (dim3 (shape b)))
          (fun _ n i j =>
             rsum (dim3 (shape a))
               (fun k => item a 0%nat (bidx (dim1 (shape a)) n) i k
                         * item b 0%nat (bidx (dim1 (shape b)) n) k j))).

Record VGGPerceptualLoss : Type := {
  blocks : list (tensor -> result tensor);
  transform : tensor -> result tensor;
  resize : bool;
  mean : tensor;
  std : tensor
}.

Section Perceptual.

(** The four slices [features[:4]], [features[4:9]], [features[9:16]] and
    [features[16:23]] of the pretrained [torchvision.models.vgg16], and
    [torch.nn.functional.interpolate] with [mode='bilinear'],
    [size=(224, 224)] and [align_corners=False]: outside this
    repository. *)
Variables vgg16_0_4 vgg16_4_9 vgg16_9_16 vgg16_16_23 : tensor -> result tensor.
Variable interpolate_224 : tensor -> result tensor.

(** [__init__(self, resize=True)] *)
Definition VGGPerceptualLoss_init (resize : bool) : VGGPerceptualLoss :=
  {| blocks := [vgg16_0_4; vgg16_4_9; vgg16_9_16; vgg16_16_23];
     transform := interpolate_224;
     resize := resize;
     mean := channel_buffer (485 / 1000) (456 / 1000) (406 / 1000);
     std := channel_buffer (229 / 1000) (224 / 1000) (225 / 1000) |}.

End Perceptual.

(** The loop of [forward] over [enumerate(self.blocks)], from index [i]. *)
Fixpoint VGGPerceptualLoss_loop
    (bs : list (tensor -> result tensor)) (i : Z)
    (feature_layers style_layers : list Z) (loss : R) (x y : tensor) : result R :=
  match bs with
  | [] => ok loss
  | block :: rest =>
      x ← block x;
      y ← block y;
      loss ← (if bool_decide (i ∈ feature_layers)
              then l ← l1_loss x y; ok (loss + l)
              else ok loss);
      loss ← (if bool_decide (i ∈ style_layers)
              then
                act_x ← reshape_flat x;
                act_y ← reshape_flat y;
                gram_x ← matmul act_x (permute_021 act_x);
                gram_y ← matmul act_y (permute_021 act_y);
                l ← l1_loss gram_x gram_y;
                ok (loss + l)
              else ok loss);
      VGGPerceptualLoss_loop rest (i + 1) feature_layers style_layers loss x y
  end.

(** [forward(self, input, target, feature_layers=[0, 1, 2, 3],
    style_layers=[])] *)
Definition VGGPerceptualLoss_forward
    (self : VGGPerceptualLoss) (input target : tensor)
    (feature_layers style_layers : list Z) : result R :=
  let '(input, target) :=
    if negb (dim1 (shape input) =? 3)%nat
    then (repeat_channels input, repeat_channels target)
    else (input, target) in
  input ← ((ok input - ok (mean self)) / ok (std self))%T;
  target ← ((ok target - ok (mean self)) / ok (std self))%T;
  '(input, target) ←
    (if resize self
     then
       input ← transform self input;
       target ← transform self target;
       ok (input, target)
     else ok (input, target));
  VGGPerceptualLoss_loop (blocks self) 0 feature_layers style_layers 0 input target.

(** The blocks, run one after the other from the batch [t], all return, each
    a batch with at least one entry. *)
Fixpoint chain_returns (bs : list (tensor -> result tensor)) (t : tensor) : Prop :=
  match bs with
  | [] => True
  | block :: rest =>
      exists t', block t = ok t' /\ (0 < numel (shape t'))%nat /\ chain_returns rest t'
  end.

(** Stand-ins for the pretrained blocks in closed examples: a block that
    doubles every entry, and the identity for the resizing. *)
Definition double_block (t : tensor) : result tensor := ok (scale 2 t).

Definition VGGPerceptualLoss_example : VGGPerceptualLoss :=
  VGGPerceptualLoss_init double_block double_block double_block double_block ok true.

(** A grey 1x1x2x2 image. *)
Definition grey_1x1x2x2 : tensor := full (Size 1 1 2 2) (1 / 2).

(** Stand-ins that change the shape as the pretrained parts do: a block
    that, like a convolution, accepts batches of [cin] channels only and
    returns [cout] channels, and a resizing to 2x2 that picks a grid of
    entries. *)
Definition widen_block (cin cout : nat) (t : tensor) : result tensor :=
  if (dim1 (shape t) =? cin)%nat
  then ok (Tensor (Size (dim0 (shape t)) cout (dim2 (shape t)) (dim3 (shape t)))
             (fun n c h w => item t n (c mod cin)%nat h w))
  else raise RuntimeError.

Definition resize_2x2 (t : tensor) : result tensor :=
  ok (Tensor (Size (dim0 (shape t)) (dim1 (shape t)) 2 2)
        (fun n c h w => item t n c (h * dim2 (shape t) / 2)%nat
                                   (w * dim3 (shape t) / 2)%nat)).

Definition VGGPerceptualLoss_widening : VGGPerceptualLoss :=
  VGGPerceptualLoss_init (widen_block 3 4) (widen_block 4 6) (widen_block 6 8)
    (widen_block 8 8) resize_2x2 true.

(** * Properties *)

(** ** The model on small inputs *)

Example roll_idx_by_one :
  map (roll_idx 4 1) [0; 1; 2; 3]%nat = [3; 0; 1; 2]%nat.
Proof. reflexivity. Qed.

Example roll_idx_past_the_length :
  map (roll_idx 4 6) [0; 1; 2; 3]%nat = [2; 3; 0; 1]%nat.
Proof. reflexivity. Qed.

Example py_bound_examples :
  py_bound 5 1 = 1%nat /\ py_bound 5 4 = 4%nat /\ py_bound 0 (-1) = 0%nat
  /\ py_bound 0 1 = 0%nat /\ py_bound 3 (-1) = 2%nat.
Proof. repeat split; reflexivity. Qed.

Example broadcast_shapes_examples :
  broadcast_shapes (Size 1 3 2 2) (Size 2 3 2 2) = ok (Size 2 3 2 2) /\
  broadcast_shapes (Size 2 3 4 4) (Size 2 1 1 1) = ok (Size 2 3 4 4) /\
  broadcast_shapes (Size 2 3 2 2) (Size 3 3 2 2) = raise RuntimeError.
Proof. repeat split; reflexivity. Qed.

Example torch_split1_lengths :
  length (torch_split1 grey_1x3x2x2) = 3%nat /\
  length (torch_split1 step_1x1x2x2) = 1%nat /\
  ColorLoss_forward step_1x1x2x2 = raise ValueError.
Proof. repeat split; reflexivity. Qed.

Example MyLoss_prints_on_epochs :
  map (fun epoch => (epoch mod 3 =? 1)%Z) [0; 1; 2; 3; 4; 7; -2]%Z
  = [false; true; false; false; true; true; true].
Proof. reflexivity. Qed.

(** ** Finite sums *)

Lemma rsum_ext (n : nat) (f g : nat -> R) :
  (forall i, (i < n)%nat -> f i = g i) -> rsum n f = rsum n g.
Proof.
  induction n as [|n IH]; intros Hfg; simpl; [reflexivity|].
  rewrite IH by (intros i Hi; apply Hfg; lia).
  rewrite (Hfg n) by lia. reflexivity.
Qed.

Lemma rsum_const (n : nat) (c : R) : rsum n (fun _ => c) = INR n * c.
Proof.
  induction n as [|n IH]; [simpl; lra|].
  rewrite S_INR. simpl. rewrite IH. lra.
Qed.

Lemma rsum_le (n : nat) (f g : nat -> R) :
  (forall i, (i < n)%nat -> f i <= g i) -> rsum n f <= rsum n g.
Proof.
  induction n as [|n IH]; intros Hfg; simpl; [lra|].
  assert (rsum n f <= rsum n g) by (apply IH; intros i Hi; apply Hfg; lia).
  assert (f n <= g n) by (apply Hfg; lia).
  lra.
Qed.

Lemma rsum_scal (n : nat) (s : R) (f : nat -> R) :
  rsum n (fun i => s * f i) = s * rsum n f.
Proof.
  induction n as [|n IH]; simpl; [lra|]. rewrite IH. lra.
Qed.

Lemma sum4_ext (s : size) (f g : nat -> nat -> nat -> nat -> R) :
  (forall n c h w, in_range s n c h w -> f n c h w = g n c h w) ->
  sum4 s f = sum4 s g.
Proof.
  intros Hfg. unfold sum4.
  apply rsum_ext; intros n Hn. apply rsum_ext; intros c Hc.
  apply rsum_ext; intros h Hh. apply rsum_ext; intros w Hw.
  apply Hfg. repeat split; assumption.
Qed.

Lemma sum4_const (s : size) (v : R) :
  sum4 s (fun _ _ _ _ => v) = INR (numel s) * v.
Proof.
  unfold sum4, numel. rewrite !rsum_const, !mult_INR. lra.
Qed.

Lemma sum4_le (s : size) (f g : nat -> nat -> nat -> nat -> R) :
  (forall n c h w, in_range s n c h w -> f n c h w <= g n c h w) ->
  sum4 s f <= sum4 s g.
Proof.
  intros Hfg. unfold sum4.
  apply rsum_le; intros n Hn. apply rsum_le; intros c Hc.
  apply rsum_le; intros h Hh. apply rsum_le; intros w Hw.
  apply Hfg. repeat split; assumption.
Qed.

Lemma sum4_scal (s : size) (k : R) (f : nat -> nat -> nat -> nat -> R) :
  sum4 s (fun n c h w => k * f n c h w) = k * sum4 s f.
Proof.
  unfold sum4. rewrite <- rsum_scal. apply rsum_ext; intros n _.
  rewrite <- rsum_scal. apply rsum_ext; intros c _.
  rewrite <- rsum_scal. apply rsum_ext; intros h _.
  apply rsum_scal.
Qed.

Lemma numel_pos_INR (s : size) : (0 < numel s)%nat -> 0 < INR (numel s).
Proof. intros H. apply lt_0_INR. exact H. Qed.

(** ** Broadcasting between equal shapes *)

Lemma broadcast_dim_same (a : nat) : broadcast_dim a a = ok a.
Proof. unfold broadcast_dim. rewrite Nat.eqb_refl. reflexivity. Qed.

Lemma broadcast_shapes_same (s : size) : broadcast_shapes s s = ok s.
Proof.
  unfold broadcast_shapes. rewrite !broadcast_dim_same. simpl.
  destruct s; reflexivity.
Qed.

Lemma bidx_lt (d i : nat) : (i < d)%nat -> bidx d i = i.
Proof.
  unfold bidx. intros Hi. destruct (Nat.eqb_spec d 1); [lia | reflexivity].
Qed.

(** Rewrites every [bidx d i] whose index is known to be in range. *)
Ltac bidx_simpl :=
  repeat match goal with
         | H : (?i < ?d)%nat |- _ => rewrite !(bidx_lt d i H)
         end.

Lemma expand_item_in_range (x : tensor) (n c h w : nat) :
  in_range (shape x) n c h w -> expand_item x n c h w = item x n c h w.
Proof.
  intros (Hn & Hc & Hh & Hw). unfold expand_item.
  rewrite !bidx_lt by assumption. reflexivity.
Qed.

Lemma binop_same_shape (op : R -> R -> R) (x y : tensor) :
  shape x = shape y ->
  binop op x y =
  ok (Tensor (shape x)
        (fun n c h w => op (expand_item x n c h w) (expand_item y n c h w))).
Proof.
  intros Hs. unfold binop. rewrite <- Hs, broadcast_shapes_same. reflexivity.
Qed.

(** ** CharbonnierLoss *)

Lemma CharbonnierLoss_forward_same_shape (self : CharbonnierLoss) (x y : tensor) :
  shape x = shape y ->
  CharbonnierLoss_forward self x y = ok (charbonnier_value (eps self) x y).
Proof.
  intros Hs. unfold CharbonnierLoss_forward, lift2. simpl.
  rewrite (binop_same_shape _ x y Hs). simpl.
  rewrite binop_same_shape by reflexivity. simpl.
  unfold tmean, tsum, charbonnier_value. simpl. f_equal. f_equal.
  apply sum4_ext; intros n c h w Hr.
  destruct Hr as (Hn & Hc & Hh & Hw).
  unfold expand_item; simpl. rewrite <- Hs.
  bidx_simpl. reflexivity.
Qed.

Lemma mean_ge (total c : R) (k : nat) :
  (0 < k)%nat -> INR k * c <= total -> c <= total / INR k.
Proof.
  intros Hk Hle. assert (0 < INR k) as HK by (apply lt_0_INR; exact Hk).
  replace c with (INR k * c / INR k) by (field; lra).
  apply Rmult_le_compat_r; [left; apply Rinv_0_lt_compat; exact HK | exact Hle].
Qed.

Lemma mean_const (c : R) (k : nat) : (0 < k)%nat -> INR k * c / INR k = c.
Proof. intros Hk. apply lt_0_INR in Hk. field. lra. Qed.

Lemma charbonnier_value_ge (e : R) (x y : tensor) :
  0 <= e -> (0 < numel (shape x))%nat -> e <= charbonnier_value e x y.
Proof.
  intros He Hpos. unfold charbonnier_value.
  apply mean_ge; [exact Hpos|].
  rewrite <- sum4_const.
  apply sum4_le; intros n c h w _.
  rewrite <- (sqrt_square e He) at 1.
  apply sqrt_le_1_alt.
  generalize (item x n c h w - item y n c h w); intros d. nra.
Qed.

Lemma charbonnier_value_nonneg (e : R) (x y : tensor) :
  (0 < numel (shape x))%nat -> 0 <= charbonnier_value e x y.
Proof.
  intros Hpos. unfold charbonnier_value.
  apply mean_ge; [exact Hpos|].
  rewrite <- sum4_const.
  apply sum4_le; intros n c h w _. apply sqrt_pos.
Qed.

Lemma charbonnier_value_self (e : R) (x : tensor) :
  0 <= e -> (0 < numel (shape x))%nat -> charbonnier_value e x x = e.
Proof.
  intros He Hpos. unfold charbonnier_value.
  rewrite (sum4_ext _ _ (fun _ _ _ _ => e)).
  - rewrite sum4_const. apply mean_const, Hpos.
  - intros n c h w _.
    replace ((item x n c h w - item x n c h w) * (item x n c h w - item x n c h w)
             + e * e) with (e * e) by lra.
    apply sqrt_square, He.
Qed.

Lemma eps_default : eps CharbonnierLoss_default = 1 / 1000.
Proof. reflexivity. Qed.

Lemma numel_grey : numel (shape grey_1x3x2x2) = 12%nat.
Proof. reflexivity. Qed.

(** C10.  On batches of one shape with at least one entry and for every
    [eps > 0], [CharbonnierLoss.forward] returns a value that is at least
    [eps], because every summand [sqrt ((x - y)^2 + eps^2)] is; on [(x, x)]
    it returns exactly [eps], not 0. *)
Theorem CharbonnierLoss_at_least_eps (self : CharbonnierLoss) (x y : tensor) :
  0 < eps self ->
  shape x = shape y ->
  (0 < numel (shape x))%nat ->
  (exists v, CharbonnierLoss_forward self x y = ok v /\ eps self <= v) /\
  CharbonnierLoss_forward self x x = ok (eps self).
Proof.
  intros He Hs Hpos. split.
  - exists (charbonnier_value (eps self) x y). split.
    + apply CharbonnierLoss_forward_same_shape, Hs.
    + apply charbonnier_value_ge; [lra | exact Hpos].
  - rewrite CharbonnierLoss_forward_same_shape by reflexivity.
    f_equal. apply charbonnier_value_self; [lra | exact Hpos].
Qed.

Lemma CharbonnierLoss_at_least_eps_witness :
  (0 < eps CharbonnierLoss_default /\
   shape grey_1x3x2x2 = shape black_1x3x2x2 /\
   (0 < numel (shape grey_1x3x2x2))%nat) /\
  ((exists v, CharbonnierLoss_forward CharbonnierLoss_default
                grey_1x3x2x2 black_1x3x2x2 = ok v
              /\ eps CharbonnierLoss_default <= v) /\
   CharbonnierLoss_forward CharbonnierLoss_default grey_1x3x2x2 grey_1x3x2x2
   = ok (eps CharbonnierLoss_default)).
Proof.
  assert (0 < eps CharbonnierLoss_default) as He by (rewrite eps_default; lra).
  assert (0 < numel (shape grey_1x3x2x2))%nat as Hn by (rewrite numel_grey; lia).
  split; [repeat split; [exact He | exact Hn] |].
  apply (CharbonnierLoss_at_least_eps CharbonnierLoss_default
           grey_1x3x2x2 black_1x3x2x2 He eq_refl Hn).
Defined.

(** C2, as stated, fails: with the default [eps = 1e-3] the loss of a batch
    against itself is [1e-3], which is not bounded by [eps^2 = 1e-6]. *)
Lemma CharbonnierLoss_self_not_below_eps_squared :
  ~ (forall v, CharbonnierLoss_forward CharbonnierLoss_default
                 grey_1x3x2x2 grey_1x3x2x2 = ok v ->
               v <= eps CharbonnierLoss_default * eps CharbonnierLoss_default).
Proof.
  intros H.
  specialize (H (1 / 1000)).
  rewrite CharbonnierLoss_forward_same_shape in H by reflexivity.
  rewrite charbonnier_value_self in H
    by (rewrite ?eps_default, ?numel_grey; (lra || lia)).
  specialize (H eq_refl). rewrite eps_default in H. lra.
Qed.

(** C2, amended.  On batches of one shape with at least one entry and for
    [eps >= 0], [CharbonnierLoss.forward] on [(x, x)] returns a value
    between 0 and [eps] (the bound is [eps], not [eps^2]); and on [(x, y)]
    it returns a value that is not negative. *)
Theorem CharbonnierLoss_self_is_eps_and_nonneg (self : CharbonnierLoss) (x y : tensor) :
  0 <= eps self ->
  shape x = shape y ->
  (0 < numel (shape x))%nat ->
  (exists v0, CharbonnierLoss_forward self x x = ok v0 /\ 0 <= v0 <= eps self) /\
  (exists v, CharbonnierLoss_forward self x y = ok v /\ 0 <= v).
Proof.
  intros He Hs Hpos. split.
  - exists (eps self). split; [|lra].
    rewrite CharbonnierLoss_forward_same_shape by reflexivity.
    f_equal. apply charbonnier_value_self; assumption.
  - exists (charbonnier_value (eps self) x y). split.
    + apply CharbonnierLoss_forward_same_shape, Hs.
    + apply charbonnier_value_nonneg, Hpos.
Qed.

Lemma CharbonnierLoss_self_is_eps_and_nonneg_witness :
  (0 <= eps CharbonnierLoss_default /\
   shape grey_1x3x2x2 = shape black_1x3x2x2 /\
   (0 < numel (shape grey_1x3x2x2))%nat) /\
  ((exists v0, CharbonnierLoss_forward CharbonnierLoss_default
                 grey_1x3x2x2 grey_1x3x2x2 = ok v0
               /\ 0 <= v0 <= eps CharbonnierLoss_default) /\
   (exists v, CharbonnierLoss_forward CharbonnierLoss_default
                grey_1x3x2x2 black_1x3x2x2 = ok v /\ 0 <= v)).
Proof.
  assert (0 <= eps CharbonnierLoss_default) as He by (rewrite eps_default; lra).
  assert (0 < numel (shape grey_1x3x2x2))%nat as Hn by (rewrite numel_grey; lia).
  split; [repeat split; [exact He | exact Hn] |].
  apply (CharbonnierLoss_self_is_eps_and_nonneg CharbonnierLoss_default
           grey_1x3x2x2 black_1x3x2x2 He eq_refl Hn).
Defined.

(** ** CharbonnierLoss on batches of different shapes *)

Lemma binop_broadcast (op : R -> R -> R) (x y : tensor) (s : size) :
  broadcast_shapes (shape x) (shape y) = ok s ->
  binop op x y =
  ok (Tensor s (fun n c h w => op (expand_item x n c h w) (expand_item y n c h w))).
Proof. intros Hs. unfold binop. rewrite Hs. reflexivity. Qed.

Lemma CharbonnierLoss_forward_broadcast (self : CharbonnierLoss) (x y : tensor) (s : size) :
  broadcast_shapes (shape x) (shape y) = ok s ->
  CharbonnierLoss_forward self x y = ok (charbonnier_broadcast_value (eps self) s x y).
Proof.
  intros Hs. unfold CharbonnierLoss_forward, lift2. simpl.
  rewrite !(binop_broadcast _ x y s Hs). simpl.
  rewrite binop_same_shape by reflexivity. simpl.
  unfold tmean, tsum, charbonnier_broadcast_value. simpl. f_equal. f_equal.
  apply sum4_ext; intros n c h w (Hn & Hc & Hh & Hw).
  unfold expand_item at 1 2 3 4; simpl. bidx_simpl. reflexivity.
Qed.

Lemma CharbonnierLoss_forward_raise (self : CharbonnierLoss) (x y : tensor) (e : exn) :
  broadcast_shapes (shape x) (shape y) = raise e ->
  CharbonnierLoss_forward self x y = raise e.
Proof.
  intros Hs. unfold CharbonnierLoss_forward, lift2. simpl.
  unfold binop. rewrite Hs. reflexivity.
Qed.

Lemma broadcast_dim_spec (a b : nat) :
  (compatible a b /\ exists d, broadcast_dim a b = ok d) \/
  (~ compatible a b /\ broadcast_dim a b = raise RuntimeError).
Proof.
  unfold broadcast_dim, compatible.
  destruct (Nat.eqb_spec a b); [left; eauto|].
  destruct (Nat.eqb_spec a 1); [left; eauto|].
  destruct (Nat.eqb_spec b 1); [left; eauto|].
  right. split; [tauto | reflexivity].
Qed.

Lemma broadcast_shapes_spec (s t : size) :
  (broadcastable s t /\ exists r, broadcast_shapes s t = ok r) \/
  (~ broadcastable s t /\ broadcast_shapes s t = raise RuntimeError).
Proof.
  unfold broadcastable, broadcast_shapes.
  destruct (broadcast_dim_spec (dim0 s) (dim0 t)) as [[H0 [d0 E0]] | [H0 E0]];
    rewrite E0; simpl; [|right; tauto].
  destruct (broadcast_dim_spec (dim1 s) (dim1 t)) as [[H1 [d1 E1]] | [H1 E1]];
    rewrite E1; simpl; [|right; tauto].
  destruct (broadcast_dim_spec (dim2 s) (dim2 t)) as [[H2 [d2 E2]] | [H2 E2]];
    rewrite E2; simpl; [|right; tauto].
  destruct (broadcast_dim_spec (dim3 s) (dim3 t)) as [[H3 [d3 E3]] | [H3 E3]];
    rewrite E3; simpl; [|right; tauto].
  left. eauto 10.
Qed.

(** C6, as stated, fails: a batch of one image and a batch of two images
    differ in shape, and [CharbonnierLoss.forward] broadcasts them and
    returns a scalar. *)
Lemma CharbonnierLoss_broadcasts_silently :
  shape black_1x3x2x2 <> shape black_2x3x2x2 /\
  CharbonnierLoss_forward CharbonnierLoss_default black_1x3x2x2 black_2x3x2x2
  = ok (1 / 1000).
Proof.
  split; [discriminate|].
  rewrite (CharbonnierLoss_forward_broadcast _ _ _ (Size 2 3 2 2)) by reflexivity.
  f_equal. unfold charbonnier_broadcast_value.
  rewrite (sum4_ext _ _ (fun _ _ _ _ => 1 / 1000)).
  - rewrite sum4_const. apply mean_const. vm_compute. lia.
  - intros n c h w _. unfold expand_item. simpl.
    replace ((0 - 0) * (0 - 0) + 1 / 1000 * (1 / 1000))
      with (1 / 1000 * (1 / 1000)) by lra.
    apply sqrt_square. lra.
Qed.

(** C6, amended.  [CharbonnierLoss.forward] has no shape check of its own:
    it returns a scalar exactly when the two shapes broadcast together (on
    every axis the sizes are equal or one of them is 1), and it fails, with
    the RuntimeError of the subtraction, exactly when they do not. *)
Theorem CharbonnierLoss_fails_iff_not_broadcastable (self : CharbonnierLoss) (x y : tensor) :
  ((exists v, CharbonnierLoss_forward self x y = ok v)
   <-> broadcastable (shape x) (shape y)) /\
  (CharbonnierLoss_forward self x y = raise RuntimeError
   <-> ~ broadcastable (shape x) (shape y)).
Proof.
  destruct (broadcast_shapes_spec (shape x) (shape y)) as [[Hb [r Hr]] | [Hb Hr]].
  - rewrite (CharbonnierLoss_forward_broadcast self x y r Hr).
    split; split; intros H; try tauto; try discriminate; eauto.
  - rewrite (CharbonnierLoss_forward_raise self x y _ Hr).
    split; split; intros H; try tauto.
    destruct H as [v Hv]. discriminate.
Qed.

(** ** MyLoss *)

Lemma MyLoss_forward_ok (self : MyLoss) (x y : tensor) (epoch : Z) (l1 s : R) :
  CharbonnierLoss_forward (l1_module self) x y = ok l1 ->
  ssim_module self x y = ok s ->
  MyLoss_forward self x y epoch
  = ok (l1 + 1 / 100 * (1 - s),
        if (epoch mod 3 =? 1)%Z then [Diagnostic l1 (1 - s)] else []).
Proof.
  intros Hl1 Hs. unfold MyLoss_forward. rewrite Hl1. simpl. rewrite Hs. reflexivity.
Qed.

Lemma MyLoss_forward_value_any_epoch (self : MyLoss) (x y : tensor) (e1 e2 : Z) :
  fst <$> MyLoss_forward self x y e1 = fst <$> MyLoss_forward self x y e2.
Proof.
  unfold MyLoss_forward.
  destruct (CharbonnierLoss_forward (l1_module self) x y) as [l1|err]; simpl;
    [|reflexivity].
  destruct (ssim_module self x y) as [s|err]; reflexivity.
Qed.

(** C1.  For batches [x], [y] of one shape on which the SSIM module returns
    the index [s], and for every epoch, [MyLoss.forward] returns
    [l1_term + 0.01 * (1 - s)], where [l1_term] is what the Charbonnier
    module (default [eps = 1e-3]) returns on [(x, y)]: the mean of
    [sqrt ((x - y)^2 + eps^2)]. *)
Theorem MyLoss_forward_is_l1_plus_weighted_ssim
    (SSIM : tensor -> tensor -> result R) (x y : tensor) (epoch : Z) (s : R) :
  shape x = shape y ->
  SSIM x y = ok s ->
  exists l1_term,
    CharbonnierLoss_forward CharbonnierLoss_default x y = ok l1_term /\
    l1_term = charbonnier_value (1 / 1000) x y /\
    fst <$> MyLoss_forward (MyLoss_init SSIM) x y epoch
    = ok (l1_term + 1 / 100 * (1 - s)).
Proof.
  intros Hshape Hs.
  exists (charbonnier_value (1 / 1000) x y).
  pose proof (CharbonnierLoss_forward_same_shape CharbonnierLoss_default x y Hshape)
    as Hl1.
  rewrite eps_default in Hl1.
  split; [exact Hl1 | split; [reflexivity|]].
  rewrite (MyLoss_forward_ok (MyLoss_init SSIM) x y epoch _ s Hl1 Hs).
  reflexivity.
Qed.

Lemma MyLoss_forward_is_l1_plus_weighted_ssim_witness :
  (shape grey_1x3x2x2 = shape black_1x3x2x2 /\
   SSIM_half grey_1x3x2x2 black_1x3x2x2 = ok (1 / 2)) /\
  exists l1_term,
    CharbonnierLoss_forward CharbonnierLoss_default grey_1x3x2x2 black_1x3x2x2
    = ok l1_term /\
    l1_term = charbonnier_value (1 / 1000) grey_1x3x2x2 black_1x3x2x2 /\
    fst <$> MyLoss_forward (MyLoss_init SSIM_half) grey_1x3x2x2 black_1x3x2x2 4
    = ok (l1_term + 1 / 100 * (1 - 1 / 2)).
Proof.
  split; [split; reflexivity|].
  apply (MyLoss_forward_is_l1_plus_weighted_ssim SSIM_half
           grey_1x3x2x2 black_1x3x2x2 4 (1 / 2) eq_refl eq_refl).
Defined.

(** C3.  The value [MyLoss.forward] returns (or the exception it raises)
    is the same for every epoch; and when both sub-losses are computed, the
    call prints one record, holding the l1 sub-loss and the similarity
    sub-loss [1 - s], when [epoch mod 3 = 1], and prints nothing for any
    other epoch, the returned loss being one and the same. *)
Theorem MyLoss_forward_print_cadence (self : MyLoss) (x y : tensor) :
  (forall e1 e2 : Z,
      fst <$> MyLoss_forward self x y e1 = fst <$> MyLoss_forward self x y e2) /\
  (forall l1 s : R,
      CharbonnierLoss_forward (l1_module self) x y = ok l1 ->
      ssim_module self x y = ok s ->
      exists loss, forall epoch : Z, exists printed,
          MyLoss_forward self x y epoch = ok (loss, printed) /\
          ((epoch mod 3 = 1)%Z -> printed = [Diagnostic l1 (1 - s)]) /\
          ((epoch mod 3 <> 1)%Z -> printed = [])).
Proof.
  split; [apply MyLoss_forward_value_any_epoch|].
  intros l1 s Hl1 Hs. exists (l1 + 1 / 100 * (1 - s)). intros epoch.
  rewrite (MyLoss_forward_ok self x y epoch l1 s Hl1 Hs).
  destruct (Z.eqb_spec (epoch mod 3) 1) as [He|He].
  - eexists; split; [reflexivity|]. split; [reflexivity | contradiction].
  - eexists; split; [reflexivity|]. split; [contradiction | reflexivity].
Qed.

Lemma MyLoss_forward_print_cadence_witness :
  MyLoss_forward (MyLoss_init SSIM_half) grey_1x3x2x2 grey_1x3x2x2 4
  = ok (1 / 1000 + 1 / 100 * (1 - 1 / 2), [Diagnostic (1 / 1000) (1 - 1 / 2)]) /\
  MyLoss_forward (MyLoss_init SSIM_half) grey_1x3x2x2 grey_1x3x2x2 5
  = ok (1 / 1000 + 1 / 100 * (1 - 1 / 2), []).
Proof.
  assert (CharbonnierLoss_forward (l1_module (MyLoss_init SSIM_half))
            grey_1x3x2x2 grey_1x3x2x2 = ok (1 / 1000)) as Hl1.
  { change (l1_module (MyLoss_init SSIM_half)) with CharbonnierLoss_default.
    rewrite CharbonnierLoss_forward_same_shape by reflexivity.
    rewrite charbonnier_value_self;
      rewrite ?eps_default, ?numel_grey; [reflexivity | lra | lia]. }
  destruct (proj2 (MyLoss_forward_print_cadence (MyLoss_init SSIM_half)
                     grey_1x3x2x2 grey_1x3x2x2) (1 / 1000) (1 / 2) Hl1 eq_refl)
    as [loss Hloss].
  destruct (Hloss 4%Z) as [p4 (E4 & P4 & _)].
  destruct (Hloss 5%Z) as [p5 (E5 & _ & P5)].
  rewrite (P4 eq_refl) in E4.
  assert (5 mod 3 <> 1)%Z as H5 by (vm_compute; discriminate).
  rewrite (P5 H5) in E5.
  assert (loss = 1 / 1000 + 1 / 100 * (1 - 1 / 2)) as ->.
  { rewrite (MyLoss_forward_ok _ _ _ _ _ _ Hl1 eq_refl) in E4. congruence. }
  split; assumption.
Defined.

(** ** TVLoss *)

Lemma py_bound_1 (len : nat) : py_bound len 1 = Nat.min 1 len.
Proof. unfold py_bound. change (1 <? 0)%Z with false. lia. Qed.

Lemma py_bound_pred (len : nat) : py_bound len (Z.of_nat len - 1) = (len - 1)%nat.
Proof.
  unfold py_bound. destruct (Z.ltb_spec (Z.of_nat len - 1) 0); lia.
Qed.

Lemma TVLoss_count_h_value (x : tensor) :
  TVLoss_count_h x = (dim1 (shape x) * (dim2 (shape x) - 1) * dim3 (shape x))%nat.
Proof.
  unfold TVLoss_count_h, tensor_size. simpl. rewrite py_bound_1.
  replace (dim2 (shape x) - Nat.min 1 (dim2 (shape x)))%nat
    with (dim2 (shape x) - 1)%nat by lia.
  reflexivity.
Qed.

Lemma TVLoss_count_w_value (x : tensor) :
  TVLoss_count_w x = (dim1 (shape x) * dim2 (shape x) * (dim3 (shape x) - 1))%nat.
Proof.
  unfold TVLoss_count_w, tensor_size. simpl. rewrite py_bound_1.
  replace (dim3 (shape x) - Nat.min 1 (dim3 (shape x)))%nat
    with (dim3 (shape x) - 1)%nat by lia.
  reflexivity.
Qed.

Lemma TVLoss_h_tv_value (x : tensor) : TVLoss_h_tv x = ok (tv_h_sum x).
Proof.
  unfold TVLoss_h_tv. rewrite py_bound_1, py_bound_pred.
  remember (Nat.min 1 (dim2 (shape x))) as lo eqn:Hlo.
  assert (dim2 (shape x) - lo = dim2 (shape x) - 1)%nat as Hsz by lia.
  unfold lift2. simpl.
  rewrite (binop_broadcast _ _ _ (Size (dim0 (shape x)) (dim1 (shape x)) (dim2 (shape x) - 1)
                   (dim3 (shape x)))).
  - simpl. unfold tsum, tv_h_sum. simpl. f_equal.
    apply sum4_ext; intros n c h w (Hn & Hc & Hh & Hw). simpl in Hn, Hc, Hh, Hw.
    unfold expand_item; simpl. rewrite Hsz, Nat.sub_0_r. bidx_simpl.
    replace lo with 1%nat by lia. reflexivity.
  - simpl. rewrite Hsz, Nat.sub_0_r. apply broadcast_shapes_same.
Qed.

Lemma TVLoss_w_tv_value (x : tensor) : TVLoss_w_tv x = ok (tv_w_sum x).
Proof.
  unfold TVLoss_w_tv. rewrite py_bound_1, py_bound_pred.
  remember (Nat.min 1 (dim3 (shape x))) as lo eqn:Hlo.
  assert (dim3 (shape x) - lo = dim3 (shape x) - 1)%nat as Hsz by lia.
  unfold lift2. simpl.
  rewrite (binop_broadcast _ _ _ (Size (dim0 (shape x)) (dim1 (shape x)) (dim2 (shape x))
                   (dim3 (shape x) - 1))).
  - simpl. unfold tsum, tv_w_sum. simpl. f_equal.
    apply sum4_ext; intros n c h w (Hn & Hc & Hh & Hw). simpl in Hn, Hc, Hh, Hw.
    unfold expand_item; simpl. rewrite Hsz, Nat.sub_0_r. bidx_simpl.
    replace lo with 1%nat by lia. reflexivity.
  - simpl. rewrite Hsz, Nat.sub_0_r. apply broadcast_shapes_same.
Qed.

Lemma TVLoss_forward_value (self : TVLoss) (x : tensor) :
  TVLoss_forward self x
  = ok (tv_loss_weight self * 2
        * (tv_h_sum x / INR (TVLoss_count_h x) + tv_w_sum x / INR (TVLoss_count_w x))
        / INR (TVLoss_batch_size x)).
Proof.
  unfold TVLoss_forward. rewrite TVLoss_h_tv_value, TVLoss_w_tv_value. reflexivity.
Qed.

(** ** ColorLoss *)

Lemma broadcast_dim_1_r (a : nat) : broadcast_dim a 1 = ok a.
Proof.
  unfold broadcast_dim. destruct (Nat.eqb_spec a 1) as [->|]; reflexivity.
Qed.

Lemma torch_split1_3 (x : tensor) :
  dim1 (shape x) = 3%nat ->
  torch_split1 x = [channel_chunk x 0; channel_chunk x 1; channel_chunk x 2].
Proof. intros H. unfold torch_split1. rewrite H. reflexivity. Qed.

Lemma ColorLoss_forward_value (x : tensor) :
  dim1 (shape x) = 3%nat -> ColorLoss_forward x = ok (color_value x).
Proof.
  intros HC. unfold ColorLoss_forward.
  rewrite (torch_split1_3 x HC). simpl.
  rewrite (torch_split1_3 (torch_mean_dim23 x) HC). simpl.
  unfold lift2. simpl. unfold binop. simpl. rewrite HC. simpl.
  unfold broadcast_shapes. simpl.
  repeat (progress (rewrite ?broadcast_dim_same, ?broadcast_dim_1_r; simpl)).
  unfold tmean, tsum, color_value, numel. simpl. f_equal. f_equal.
  apply sum4_ext; intros n c h w (Hn & Hc & Hh & Hw). simpl in Hn, Hc, Hh, Hw.
  unfold expand_item, channel_mean. simpl.
  assert (c = 0)%nat as -> by lia. bidx_simpl. reflexivity.
Qed.

Lemma ColorLoss_forward_wrong_channels (x : tensor) :
  dim1 (shape x) <> 3%nat -> ColorLoss_forward x = raise ValueError.
Proof.
  intros HC. unfold ColorLoss_forward, torch_split1.
  destruct (dim1 (shape x)) as [|[|[|[|k]]]]; try reflexivity. contradiction.
Qed.

Lemma channel_mean_scale (s : R) (x : tensor) (n c : nat) :
  channel_mean (scale s x) n c = s * channel_mean x n c.
Proof.
  unfold channel_mean. simpl.
  rewrite (rsum_ext _ _ (fun h => s * rsum (dim3 (shape x)) (fun w => item x n c h w)))
    by (intros h _; apply rsum_scal).
  rewrite rsum_scal. unfold Rdiv. ring.
Qed.

Lemma sqrt_scale3 (s a b c : R) :
  0 <= s ->
  sqrt ((s * a) ^ 2 + (s * b) ^ 2 + (s * c) ^ 2) = s * sqrt (a ^ 2 + b ^ 2 + c ^ 2).
Proof.
  intros Hs.
  replace ((s * a) ^ 2 + (s * b) ^ 2 + (s * c) ^ 2)
    with ((s * s) * (a ^ 2 + b ^ 2 + c ^ 2)) by ring.
  rewrite sqrt_mult_alt by nra.
  rewrite sqrt_square by exact Hs. reflexivity.
Qed.

Lemma color_value_scale (s : R) (x : tensor) :
  0 <= s -> color_value (scale s x) = s * color_value x.
Proof.
  intros Hs. unfold color_value.
  change (shape (scale s x)) with (shape x).
  rewrite (sum4_ext _ _
    (fun n (_ : nat) h w =>
       s * sqrt ((item x n 0%nat h w - channel_mean x n 0%nat) ^ 2
                 + (item x n 2%nat h w - channel_mean x n 2%nat) ^ 2
                 + (item x n 1%nat h w - channel_mean x n 1%nat) ^ 2))).
  - rewrite sum4_scal. unfold Rdiv. ring.
  - intros n c h w _. rewrite !channel_mean_scale. simpl item.
    rewrite <- sqrt_scale3 by exact Hs. f_equal. ring.
Qed.

Lemma color_value_red_ramp : color_value red_ramp_1x3x1x2 = 1 / 2.
Proof.
  unfold color_value.
  rewrite (sum4_ext _ _ (fun _ _ _ _ => 1 / 2)).
  - rewrite sum4_const. unfold numel. simpl. lra.
  - intros n c h w (Hn & Hc & Hh & Hw). simpl in Hn, Hc, Hh, Hw.
    assert (n = 0)%nat as -> by lia.
    unfold channel_mean. simpl.
    replace (1 / 2) with (sqrt (1 / 2 * (1 / 2))) by (apply sqrt_square; lra).
    f_equal. destruct w as [|[|w]]; [lra | lra | lia].
Qed.

(** C8, as stated, fails: doubling the brightness of an image whose red
    channel goes from 0 to 1 doubles its colour loss, from 1/2 to 1. *)
Lemma ColorLoss_not_scale_invariant :
  ColorLoss_forward red_ramp_1x3x1x2 = ok (1 / 2) /\
  ColorLoss_forward (scale 2 red_ramp_1x3x1x2) = ok 1 /\
  ColorLoss_forward (scale 2 red_ramp_1x3x1x2) <> ColorLoss_forward red_ramp_1x3x1x2.
Proof.
  assert (ColorLoss_forward red_ramp_1x3x1x2 = ok (1 / 2)) as H1.
  { rewrite ColorLoss_forward_value by reflexivity.
    f_equal. apply color_value_red_ramp. }
  assert (ColorLoss_forward (scale 2 red_ramp_1x3x1x2) = ok 1) as H2.
  { rewrite ColorLoss_forward_value by reflexivity.
    rewrite color_value_scale by lra. rewrite color_value_red_ramp. f_equal. lra. }
  split; [exact H1 | split; [exact H2|]].
  rewrite H1, H2. intros E. injection E. lra.
Qed.

Lemma channel_mean_flat (x : tensor) (n c : nat) :
  flat_colour x ->
  (n < dim0 (shape x))%nat -> (c < dim1 (shape x))%nat ->
  (0 < dim2 (shape x) * dim3 (shape x))%nat ->
  channel_mean x n c = item x n c 0%nat 0%nat.
Proof.
  intros Hflat Hn Hc Hpos. unfold channel_mean.
  rewrite (rsum_ext _ _ (fun _ => INR (dim3 (shape x)) * item x n c 0%nat 0%nat)).
  - rewrite rsum_const, <- Rmult_assoc, <- mult_INR. apply mean_const, Hpos.
  - intros h Hh.
    rewrite (rsum_ext _ _ (fun _ => item x n c 0%nat 0%nat)).
    + apply rsum_const.
    + intros w Hw. apply Hflat. repeat split; assumption.
Qed.

Lemma color_value_flat (x : tensor) :
  flat_colour x -> dim1 (shape x) = 3%nat -> (0 < numel (shape x))%nat ->
  color_value x = 0.
Proof.
  intros Hflat HC Hpos. unfold color_value.
  assert (0 < dim2 (shape x) * dim3 (shape x))%nat as HHW
    by (unfold numel in Hpos; nia).
  rewrite (sum4_ext _ _ (fun _ _ _ _ => 0)).
  - rewrite sum4_const. unfold Rdiv. ring.
  - intros n c h w (Hn & Hc & Hh & Hw). simpl in Hn, Hc, Hh, Hw.
    rewrite !channel_mean_flat by (assumption || (rewrite HC; lia)).
    rewrite !(Hflat n _ h w) by (repeat split; try assumption; rewrite HC; lia).
    rewrite <- sqrt_0. f_equal. ring.
Qed.

(** C8, amended.  For every 3-channel batch [x] and every positive scalar
    [s], [ColorLoss.forward] on [s * x] returns [s] times what it returns
    on [x]: the term scales with the brightness.  It is unchanged by the
    scaling where it is 0, as on every flat-colour batch. *)
Theorem ColorLoss_scales_with_brightness (x : tensor) (s : R) :
  dim1 (shape x) = 3%nat ->
  0 < s ->
  (exists v, ColorLoss_forward x = ok v /\ ColorLoss_forward (scale s x) = ok (s * v)) /\
  (flat_colour x -> (0 < numel (shape x))%nat ->
   ColorLoss_forward x = ok 0 /\ ColorLoss_forward (scale s x) = ok 0).
Proof.
  intros HC Hs.
  assert (ColorLoss_forward x = ok (color_value x)) as Hx
    by (apply ColorLoss_forward_value, HC).
  assert (ColorLoss_forward (scale s x) = ok (s * color_value x)) as Hsx.
  { rewrite ColorLoss_forward_value by exact HC.
    rewrite color_value_scale by lra. reflexivity. }
  split.
  - exists (color_value x). split; assumption.
  - intros Hflat Hpos. rewrite Hx, Hsx, (color_value_flat x Hflat HC Hpos).
    split; f_equal. ring.
Qed.

Lemma flat_colour_orange : flat_colour orange_1x3x2x2.
Proof. intros n c h w _. reflexivity. Qed.

Lemma ColorLoss_scales_with_brightness_witness :
  (dim1 (shape orange_1x3x2x2) = 3%nat /\ 0 < 2 /\
   flat_colour orange_1x3x2x2 /\ (0 < numel (shape orange_1x3x2x2))%nat) /\
  (exists v, ColorLoss_forward orange_1x3x2x2 = ok v
             /\ ColorLoss_forward (scale 2 orange_1x3x2x2) = ok (2 * v)) /\
  ColorLoss_forward orange_1x3x2x2 = ok 0 /\
  ColorLoss_forward (scale 2 orange_1x3x2x2) = ok 0.
Proof.
  assert (0 < 2) as H2 by lra.
  assert (0 < numel (shape orange_1x3x2x2))%nat as Hn by (vm_compute; lia).
  split;
    [split; [reflexivity | split; [exact H2 | split; [exact flat_colour_orange | exact Hn]]] |].
  destruct (ColorLoss_scales_with_brightness orange_1x3x2x2 2 eq_refl H2)
    as [Hscale Hflat].
  split; [exact Hscale | exact (Hflat flat_colour_orange Hn)].
Defined.

(** ** TVLoss: the factor 2 *)

Lemma tv_h_sum_step : tv_h_sum step_1x1x2x2 = 2.
Proof. unfold tv_h_sum, sum4. simpl. lra. Qed.

Lemma tv_w_sum_step : tv_w_sum step_1x1x2x2 = 0.
Proof. unfold tv_w_sum, sum4. simpl. lra. Qed.

(** C9, as stated, fails: on a 1x1x2x2 image with rows 0 and 1 and weight 1
    the code returns 2, twice [weight * (h_tv / count_h + w_tv / count_w) /
    batch_size], which is 1. *)
Lemma TVLoss_forward_not_unweighted_sum :
  ~ (forall h_tv w_tv,
        TVLoss_h_tv step_1x1x2x2 = ok h_tv ->
        TVLoss_w_tv step_1x1x2x2 = ok w_tv ->
        TVLoss_forward (TVLoss_init 1) step_1x1x2x2
        = ok (tv_loss_weight (TVLoss_init 1)
              * (h_tv / INR (TVLoss_count_h step_1x1x2x2)
                 + w_tv / INR (TVLoss_count_w step_1x1x2x2))
              / INR (TVLoss_batch_size step_1x1x2x2))).
Proof.
  intros H.
  specialize (H _ _ (TVLoss_h_tv_value _) (TVLoss_w_tv_value _)).
  rewrite TVLoss_forward_value in H. injection H as H.
  rewrite tv_h_sum_step, tv_w_sum_step in H. lra.
Qed.

(** C9, amended.  On a batch with at least one image, one channel and two
    rows and columns, [TVLoss.forward] returns
    [tv_loss_weight * 2 * (h_tv / count_h + w_tv / count_w) / batch_size],
    where [h_tv] and [w_tv] are the sums of the squared differences of
    vertically and of horizontally adjacent entries, and [count_h =
    C * (H - 1) * W] and [count_w = C * H * (W - 1)] are the numbers of such
    differences in one image. *)
Theorem TVLoss_forward_twice_weighted_sum (self : TVLoss) (x : tensor) :
  (1 <= dim0 (shape x))%nat -> (1 <= dim1 (shape x))%nat ->
  (2 <= dim2 (shape x))%nat -> (2 <= dim3 (shape x))%nat ->
  exists h_tv w_tv,
    TVLoss_h_tv x = ok h_tv /\ h_tv = tv_h_sum x /\
    TVLoss_w_tv x = ok w_tv /\ w_tv = tv_w_sum x /\
    TVLoss_count_h x = (dim1 (shape x) * (dim2 (shape x) - 1) * dim3 (shape x))%nat /\
    TVLoss_count_w x = (dim1 (shape x) * dim2 (shape x) * (dim3 (shape x) - 1))%nat /\
    (0 < TVLoss_count_h x)%nat /\ (0 < TVLoss_count_w x)%nat /\
    (0 < TVLoss_batch_size x)%nat /\
    TVLoss_forward self x
    = ok (tv_loss_weight self * 2
          * (h_tv / INR (TVLoss_count_h x) + w_tv / INR (TVLoss_count_w x))
          / INR (TVLoss_batch_size x)).
Proof.
  intros HN HC HH HW.
  exists (tv_h_sum x), (tv_w_sum x).
  rewrite TVLoss_count_h_value, TVLoss_count_w_value.
  repeat split;
    try apply TVLoss_h_tv_value; try apply TVLoss_w_tv_value;
    try (unfold TVLoss_batch_size; nia).
  rewrite TVLoss_forward_value, TVLoss_count_h_value, TVLoss_count_w_value.
  reflexivity.
Qed.

Lemma TVLoss_forward_twice_weighted_sum_witness :
  TVLoss_forward (TVLoss_init 1) step_1x1x2x2 = ok 2.
Proof.
  destruct (TVLoss_forward_twice_weighted_sum (TVLoss_init 1) step_1x1x2x2)
    as (h_tv & w_tv & _ & Hh & _ & Hw & Hch & Hcw & _ & _ & _ & Hf);
    [simpl; lia | simpl; lia | simpl; lia | simpl; lia |].
  rewrite Hf, Hh, Hw, Hch, Hcw, tv_h_sum_step, tv_w_sum_step.
  f_equal. simpl. lra.
Defined.

(** ** ExposureLoss *)

Lemma ExposureLoss_init_no_pool (patch_size : Z) (mean_val : R) :
  ExposureLoss_init patch_size mean_val !! "pool"%string = None.
Proof.
  unfold ExposureLoss_init. rewrite !lookup_insert_ne by discriminate.
  apply lookup_empty.
Qed.

(** C4.  [ExposureLoss.forward] reads [self.pool], which [__init__] never
    sets ([patch_size] is stored and not used): whatever the patch size,
    the target mean and the batch, the call raises AttributeError and
    returns no loss. *)
Theorem ExposureLoss_forward_raises_AttributeError
    (cuda : tensor -> result tensor) (patch_size : Z) (mean_val : R) (x : tensor) :
  ExposureLoss_forward cuda (ExposureLoss_init patch_size mean_val) x
  = raise (AttributeError "pool").
Proof.
  unfold ExposureLoss_forward, getattr.
  rewrite ExposureLoss_init_no_pool. reflexivity.
Qed.

(** ** ColorLoss1 *)

Lemma torch_getattr_split : torch_getattr "split" = ok tt.
Proof. reflexivity. Qed.

Lemma torch_getattr_spiit : torch_getattr "spiit" = raise (AttributeError "spiit").
Proof. reflexivity. Qed.

Lemma torch_getattr_arcos : torch_getattr "arcos" = raise (AttributeError "arcos").
Proof. reflexivity. Qed.

Lemma ColorLoss1_forward_raises (x y : tensor) :
  dim1 (shape x) = 3%nat ->
  ColorLoss1_forward x y = raise (AttributeError "spiit").
Proof.
  intros HC. unfold ColorLoss1_forward.
  rewrite torch_getattr_split, (torch_split1_3 x HC). simpl.
  rewrite torch_getattr_spiit. reflexivity.
Qed.

(** C5.  On two identical images of one orange colour, whose RGB vector
    (1, 1/2, 0) is not zero, [ColorLoss1.forward] returns no angular
    distance (the claim expects one of about 0): the call of [torch.spiit]
    on line 207, a name the [torch] namespace does not have, raises
    AttributeError. *)
Lemma ColorLoss1_forward_identical_raises :
  (forall n h w, rgb_norm orange_1x3x2x2 n h w <> 0) /\
  ColorLoss1_forward orange_1x3x2x2 orange_1x3x2x2 = raise (AttributeError "spiit").
Proof.
  split.
  - intros n h w. unfold rgb_norm. simpl.
    intros H. apply sqrt_eq_0 in H; lra.
  - apply ColorLoss1_forward_raises. reflexivity.
Qed.

(** ** UnionLoss *)

Lemma roll_idx_wraps (len k i : nat) :
  (i < len)%nat ->
  (roll_idx len k i < len)%nat /\ ((roll_idx len k i + k) mod len = i)%nat.
Proof.
  intros Hi. unfold roll_idx. split.
  - apply Nat.mod_upper_bound. lia.
  - rewrite Nat.Div0.add_mod_idemp_l.
    pose proof (Nat.div_mod_eq k len) as Hk.
    pose proof (Nat.mod_upper_bound k len ltac:(lia)) as Hlt.
    replace (i + (len - k mod len) + k)%nat with (i + (1 + k / len) * len)%nat by nia.
    rewrite Nat.Div0.mod_add. apply Nat.mod_small, Hi.
Qed.

Lemma shift_sum_unfold (t : tensor) (dims n c h w : nat) :
  shift_sum t dims n c h w
  = Rabs (item (torch_roll t 2 dims) n c h w - item t n c h w)
    + Rabs (item (torch_roll t 4 dims) n c h w - item t n c h w)
    + Rabs (item (torch_roll t 8 dims) n c h w - item t n c h w)
    + Rabs (item (torch_roll t 16 dims) n c h w - item t n c h w)
    + Rabs (item (torch_roll t 32 dims) n c h w - item t n c h w)
    + Rabs (item (torch_roll t 64 dims) n c h w - item t n c h w)
    + Rabs (item (torch_roll t 128 dims) n c h w - item t n c h w).
Proof. unfold shift_sum, UnionLoss_distances. cbn [map fold_right]. ring. Qed.

Lemma UnionLoss_shifts_value (t : tensor) (dims : nat) :
  exists m,
    UnionLoss_shifts t dims = ok m /\ shape m = shape t /\
    forall n c h w, in_range (shape t) n c h w ->
                    item m n c h w = shift_sum t dims n c h w.
Proof.
  unfold UnionLoss_shifts, lift2. simpl. unfold binop. simpl.
  repeat (progress (rewrite ?broadcast_shapes_same; simpl)).
  eexists. split; [reflexivity|]. split; [reflexivity|].
  intros n c h w (Hn & Hc & Hh & Hw).
  rewrite shift_sum_unfold. unfold expand_item. simpl. bidx_simpl. reflexivity.
Qed.

Lemma UnionLoss_forward_value (x y : tensor) :
  shape x = shape y -> UnionLoss_forward x y = ok (union_value x y).
Proof.
  intros Hs. unfold UnionLoss_forward.
  destruct (UnionLoss_shifts_value x 2) as (x_ & -> & Sx_ & Ix_).
  destruct (UnionLoss_shifts_value y 2) as (y_ & -> & Sy_ & Iy_).
  destruct (UnionLoss_shifts_value x 3) as (x__ & -> & Sx__ & Ix__).
  destruct (UnionLoss_shifts_value y 3) as (y__ & -> & Sy__ & Iy__).
  rewrite <- Hs in Sy_, Sy__, Iy_, Iy__.
  unfold lift2. simpl.
  rewrite (binop_broadcast _ x_ y_ (shape x))
    by (rewrite Sx_, Sy_; apply broadcast_shapes_same).
  rewrite (binop_broadcast _ x__ y__ (shape x))
    by (rewrite Sx__, Sy__; apply broadcast_shapes_same).
  simpl. rewrite binop_same_shape by reflexivity. simpl.
  unfold tmean, tsum, union_value. simpl. f_equal. f_equal. f_equal.
  apply sum4_ext; intros n c h w Hr.
  unfold expand_item. simpl. rewrite Sx_, Sy_, Sx__, Sy__.
  destruct Hr as (Hn & Hc & Hh & Hw). bidx_simpl.
  rewrite Ix_, Iy_, Ix__, Iy__ by (repeat split; assumption).
  reflexivity.
Qed.

Lemma union_value_self (x : tensor) : union_value x x = 0.
Proof.
  unfold union_value.
  rewrite (sum4_ext _ _ (fun _ _ _ _ => 0)).
  - rewrite sum4_const. unfold Rdiv. ring.
  - intros n c h w _. rewrite !Rminus_diag, Rabs_R0. lra.
Qed.

(** C7.  On batches of one shape with at least one entry,
    [UnionLoss.forward] returns half the mean of
    [|sx2 - sy2| / 7 + |sx3 - sy3| / 7], where [sx2], [sy2] (along the
    height) and [sx3], [sy3] (along the width) sum, over the distances 2, 4,
    8, 16, 32, 64 and 128, the absolute differences between a batch and its
    shift by that distance.  The shift is cyclic: the entry at index [i]
    comes from the index [k] places before it modulo the length of the axis,
    so every entry is an entry of the batch and none is padding.  On
    [(x, x)] the loss is 0. *)
Theorem UnionLoss_cyclic_shifts_zero_on_equal (x y : tensor) :
  shape x = shape y ->
  (0 < numel (shape x))%nat ->
  UnionLoss_forward x y = ok (union_value x y) /\
  (forall k n c h w,
      in_range (shape x) n c h w ->
      let h' := roll_idx (dim2 (shape x)) k h in
      let w' := roll_idx (dim3 (shape x)) k w in
      (h' < dim2 (shape x))%nat /\ ((h' + k) mod dim2 (shape x) = h)%nat /\
      item (torch_roll x k 2) n c h w = item x n c h' w /\
      (w' < dim3 (shape x))%nat /\ ((w' + k) mod dim3 (shape x) = w)%nat /\
      item (torch_roll x k 3) n c h w = item x n c h w') /\
  UnionLoss_forward x x = ok 0.
Proof.
  intros Hs Hpos. split; [apply UnionLoss_forward_value, Hs | split].
  - intros k n c h w (Hn & Hc & Hh & Hw) h' w'.
    destruct (roll_idx_wraps (dim2 (shape x)) k h Hh) as [Hh1 Hh2].
    destruct (roll_idx_wraps (dim3 (shape x)) k w Hw) as [Hw1 Hw2].
    repeat split; assumption || reflexivity.
  - rewrite UnionLoss_forward_value by reflexivity.
    rewrite union_value_self. reflexivity.
Qed.

Lemma UnionLoss_cyclic_shifts_zero_on_equal_witness :
  (shape ramp_1x3x4x4 = shape grey_1x3x4x4 /\
   (0 < numel (shape ramp_1x3x4x4))%nat) /\
  UnionLoss_forward ramp_1x3x4x4 grey_1x3x4x4
  = ok (union_value ramp_1x3x4x4 grey_1x3x4x4) /\
  item (torch_roll ramp_1x3x4x4 2 2) 0%nat 0%nat 1%nat 0%nat
  = item ramp_1x3x4x4 0%nat 0%nat 3%nat 0%nat /\
  UnionLoss_forward ramp_1x3x4x4 ramp_1x3x4x4 = ok 0.
Proof.
  assert (0 < numel (shape ramp_1x3x4x4))%nat as Hn by (vm_compute; lia).
  split; [split; [reflexivity | exact Hn] |].
  destruct (UnionLoss_cyclic_shifts_zero_on_equal ramp_1x3x4x4 grey_1x3x4x4
              eq_refl Hn) as (Hval & Hroll & Hzero).
  split; [exact Hval | split; [| exact Hzero]].
  destruct (Hroll 2%nat 0%nat 0%nat 1%nat 0%nat) as (_ & _ & Hitem & _).
  - repeat split; simpl; lia.
  - exact Hitem.
Defined.

(** * Further properties *)

(** ** The further definitions on small inputs *)

Example repeat_channels_tiles :
  shape (repeat_channels grey_1x1x2x2) = Size 1 3 2 2 /\
  map (fun c => (c mod 2)%nat) [0; 1; 2; 3; 4; 5]%nat = [0; 1; 0; 1; 0; 1]%nat.
Proof. split; reflexivity. Qed.

Example reshape_flat_empty_batch :
  reshape_flat (full (Size 0 3 2 2) 0) = raise RuntimeError.
Proof. reflexivity. Qed.

(** The Gram matrix of the two channels [(1, 2)] and [(3, 4)] of a 1x2x1x2
    image is [[5, 11], [11, 25]]. *)
Example gram_of_two_channels :
  let t := Tensor (Size 1 2 1 2)
             (fun _ c _ w => match c, w with
                             | O, O => 1 | O, S _ => 2 | S _, O => 3 | S _, S _ => 4
                             end) in
  exists a g,
    reshape_flat t = ok a /\ matmul a (permute_021 a) = ok g /\
    shape g = Size 1 1 2 2 /\
    item g 0%nat 0%nat 0%nat 0%nat = 5 /\ item g 0%nat 0%nat 0%nat 1%nat = 11 /\
    item g 0%nat 0%nat 1%nat 0%nat = 11 /\ item g 0%nat 0%nat 1%nat 1%nat = 25.
Proof.
  eexists. eexists. split; [reflexivity|]. split; [reflexivity|].
  split; [reflexivity|]. simpl. repeat split; lra.
Qed.

Example py_bound_minus_one :
  map (fun len => py_bound len (-1)) [0; 1; 2; 5]%nat = [0; 0; 1; 4]%nat.
Proof. reflexivity. Qed.

(** ** More on finite sums *)

Lemma rsum_plus (n : nat) (f g : nat -> R) :
  rsum n (fun i => f i + g i) = rsum n f + rsum n g.
Proof.
  induction n as [|n IH]; simpl; [lra|]. rewrite IH. lra.
Qed.

Lemma sum4_plus (s : size) (f g : nat -> nat -> nat -> nat -> R) :
  sum4 s (fun n c h w => f n c h w + g n c h w) = sum4 s f + sum4 s g.
Proof.
  unfold sum4.
  rewrite <- rsum_plus. apply rsum_ext; intros n _.
  rewrite <- rsum_plus. apply rsum_ext; intros c _.
  rewrite <- rsum_plus. apply rsum_ext; intros h _.
  apply rsum_plus.
Qed.

Lemma sum4_nonneg (s : size) (f : nat -> nat -> nat -> nat -> R) :
  (forall n c h w, in_range s n c h w -> 0 <= f n c h w) -> 0 <= sum4 s f.
Proof.
  intros Hf.
  replace 0 with (INR (numel s) * 0) by ring.
  rewrite <- sum4_const. apply sum4_le. exact Hf.
Qed.

Lemma sum4_zero (s : size) (f : nat -> nat -> nat -> nat -> R) :
  (forall n c h w, in_range s n c h w -> f n c h w = 0) -> sum4 s f = 0.
Proof.
  intros Hf. rewrite (sum4_ext _ _ (fun _ _ _ _ => 0)) by exact Hf.
  rewrite sum4_const. ring.
Qed.

Lemma mean_le (a b : R) (k : nat) :
  (0 < k)%nat -> a <= b -> a / INR k <= b / INR k.
Proof.
  intros Hk Hab. apply lt_0_INR in Hk.
  apply Rmult_le_compat_r; [left; apply Rinv_0_lt_compat; exact Hk | exact Hab].
Qed.

Lemma div_nonneg (a b : R) : 0 <= a -> 0 <= b -> 0 <= a / b.
Proof.
  intros Ha Hb. destruct (Req_dec b 0) as [->|Hnz].
  - unfold Rdiv. rewrite Rinv_0. lra.
  - apply Rmult_le_pos; [exact Ha | left; apply Rinv_0_lt_compat; lra].
Qed.

(** ** CharbonnierLoss, continued *)

Lemma broadcast_dim_comm (a b : nat) : broadcast_dim a b = broadcast_dim b a.
Proof.
  unfold broadcast_dim.
  destruct (Nat.eqb_spec a b) as [->|Hab].
  - rewrite Nat.eqb_refl. reflexivity.
  - destruct (Nat.eqb_spec b a) as [Hba|_]; [congruence|].
    destruct (Nat.eqb_spec a 1), (Nat.eqb_spec b 1); try reflexivity. congruence.
Qed.

Lemma broadcast_shapes_comm (s t : size) : broadcast_shapes s t = broadcast_shapes t s.
Proof.
  unfold broadcast_shapes.
  rewrite (broadcast_dim_comm (dim0 s)), (broadcast_dim_comm (dim1 s)),
    (broadcast_dim_comm (dim2 s)), (broadcast_dim_comm (dim3 s)).
  reflexivity.
Qed.

(** X1.  [CharbonnierLoss.forward] is symmetric in its two batches, whatever
    their shapes: it returns the same value, or raises the same exception,
    on [(x, y)] and on [(y, x)]. *)
Theorem CharbonnierLoss_forward_symmetric (self : CharbonnierLoss) (x y : tensor) :
  CharbonnierLoss_forward self x y = CharbonnierLoss_forward self y x.
Proof.
  destruct (broadcast_shapes (shape x) (shape y)) as [s|e] eqn:Hxy.
  - rewrite (CharbonnierLoss_forward_broadcast self x y s Hxy).
    rewrite broadcast_shapes_comm in Hxy.
    rewrite (CharbonnierLoss_forward_broadcast self y x s Hxy).
    f_equal. unfold charbonnier_broadcast_value. f_equal.
    apply sum4_ext; intros n c h w _. f_equal. ring.
  - rewrite (CharbonnierLoss_forward_raise self x y e Hxy).
    rewrite broadcast_shapes_comm in Hxy.
    rewrite (CharbonnierLoss_forward_raise self y x e Hxy). reflexivity.
Qed.

Lemma charbonnier_summand_bounds (d e : R) :
  0 <= e -> Rabs d <= sqrt (d * d + e * e) <= Rabs d + e.
Proof.
  intros He. pose proof (Rabs_pos d) as Hd.
  assert (Rabs d * Rabs d = d * d) as Hsq.
  { unfold Rabs. destruct (Rcase_abs d); ring. }
  split.
  - rewrite <- (sqrt_square (Rabs d)) at 1 by exact Hd.
    apply sqrt_le_1_alt. nra.
  - rewrite <- (sqrt_square (Rabs d + e)) by lra.
    apply sqrt_le_1_alt. nra.
Qed.

(** X2.  On batches of one shape with at least one entry and for
    [eps >= 0], the Charbonnier loss lies between the mean absolute
    difference of the two batches and that mean plus [eps]: it is the L1
    distance up to [eps]. *)
Theorem CharbonnierLoss_within_eps_of_l1 (self : CharbonnierLoss) (x y : tensor) :
  0 <= eps self ->
  shape x = shape y ->
  (0 < numel (shape x))%nat ->
  exists v,
    CharbonnierLoss_forward self x y = ok v /\
    l1_mean x y <= v <= l1_mean x y + eps self.
Proof.
  intros He Hs Hpos. exists (charbonnier_value (eps self) x y).
  split; [apply CharbonnierLoss_forward_same_shape, Hs|].
  unfold charbonnier_value, l1_mean. split.
  - apply mean_le; [exact Hpos|]. apply sum4_le; intros n c h w _.
    apply charbonnier_summand_bounds, He.
  - match goal with
    | |- _ <= ?l / ?k + ?e =>
        replace (l / k + e) with ((l + INR (numel (shape x)) * e) / k)
          by (apply numel_pos_INR in Hpos; field; lra)
    end.
    rewrite <- sum4_const, <- sum4_plus.
    apply mean_le; [exact Hpos|]. apply sum4_le; intros n c h w _.
    apply charbonnier_summand_bounds, He.
Qed.

Lemma CharbonnierLoss_within_eps_of_l1_witness :
  exists v,
    CharbonnierLoss_forward CharbonnierLoss_default grey_1x3x2x2 black_1x3x2x2 = ok v /\
    l1_mean grey_1x3x2x2 black_1x3x2x2 <= v
    <= l1_mean grey_1x3x2x2 black_1x3x2x2 + 1 / 1000.
Proof.
  apply (CharbonnierLoss_within_eps_of_l1 CharbonnierLoss_default
           grey_1x3x2x2 black_1x3x2x2).
  - rewrite eps_default. lra.
  - reflexivity.
  - rewrite numel_grey. lia.
Defined.

(** ** TVLoss, continued *)

Lemma tv_sizes_ok_step : tv_sizes_ok step_1x1x2x2.
Proof. unfold tv_sizes_ok. simpl. lia. Qed.

Lemma tv_sizes_ok_orange : tv_sizes_ok orange_1x3x2x2.
Proof. unfold tv_sizes_ok. simpl. lia. Qed.

Lemma tv_h_sum_nonneg (x : tensor) : 0 <= tv_h_sum x.
Proof. apply sum4_nonneg; intros n c h w _. apply pow2_ge_0. Qed.

Lemma tv_w_sum_nonneg (x : tensor) : 0 <= tv_w_sum x.
Proof. apply sum4_nonneg; intros n c h w _. apply pow2_ge_0. Qed.

(** X3.  On a batch with at least one image, one channel, two rows and two
    columns, and for a weight that is not negative, [TVLoss.forward]
    returns a value that is not negative. *)
Theorem TVLoss_forward_nonneg (self : TVLoss) (x : tensor) :
  0 <= tv_loss_weight self ->
  tv_sizes_ok x ->
  exists v, TVLoss_forward self x = ok v /\ 0 <= v.
Proof.
  intros Hw _. eexists. split; [apply TVLoss_forward_value|].
  apply div_nonneg; [|apply pos_INR].
  apply Rmult_le_pos; [lra|].
  apply Rplus_le_le_0_compat; apply div_nonneg;
    auto using tv_h_sum_nonneg, tv_w_sum_nonneg, pos_INR.
Qed.

Lemma TVLoss_forward_nonneg_witness :
  exists v, TVLoss_forward (TVLoss_init 1) step_1x1x2x2 = ok v /\ 0 <= v.
Proof.
  apply (TVLoss_forward_nonneg (TVLoss_init 1) step_1x1x2x2);
    [simpl; lra | exact tv_sizes_ok_step].
Defined.

Lemma tv_h_sum_flat (x : tensor) : flat_colour x -> tv_h_sum x = 0.
Proof.
  intros Hflat. apply sum4_zero; intros n c h w (Hn & Hc & Hh & Hw).
  simpl in Hn, Hc, Hh, Hw.
  rewrite (Hflat n c (1 + h)%nat w), (Hflat n c h w)
    by (repeat split; simpl; lia).
  ring.
Qed.

Lemma tv_w_sum_flat (x : tensor) : flat_colour x -> tv_w_sum x = 0.
Proof.
  intros Hflat. apply sum4_zero; intros n c h w (Hn & Hc & Hh & Hw).
  simpl in Hn, Hc, Hh, Hw.
  rewrite (Hflat n c h (1 + w)%nat), (Hflat n c h w)
    by (repeat split; simpl; lia).
  ring.
Qed.

(** X4.  On a batch in which every channel of every image is constant
    (and with at least one image, one channel, two rows and two columns),
    [TVLoss.forward] returns 0, whatever the weight. *)
Theorem TVLoss_forward_zero_on_flat (self : TVLoss) (x : tensor) :
  flat_colour x ->
  tv_sizes_ok x ->
  TVLoss_forward self x = ok 0.
Proof.
  intros Hflat _. rewrite TVLoss_forward_value.
  rewrite (tv_h_sum_flat x Hflat), (tv_w_sum_flat x Hflat).
  f_equal. unfold Rdiv. ring.
Qed.

Lemma TVLoss_forward_zero_on_flat_witness :
  TVLoss_forward (TVLoss_init 3) orange_1x3x2x2 = ok 0.
Proof.
  exact (TVLoss_forward_zero_on_flat (TVLoss_init 3) orange_1x3x2x2
           flat_colour_orange tv_sizes_ok_orange).
Defined.

(** X5.  Scaling a batch by [s] scales what [TVLoss.forward] returns by
    [s^2]: the term is quadratic in the entries. *)
Theorem TVLoss_forward_quadratic (self : TVLoss) (x : tensor) (s : R) :
  tv_sizes_ok x ->
  exists v,
    TVLoss_forward self x = ok v /\
    TVLoss_forward self (scale s x) = ok (s ^ 2 * v).
Proof.
  intros _. eexists. split; [apply TVLoss_forward_value|].
  rewrite TVLoss_forward_value. f_equal.
  assert (tv_h_sum (scale s x) = s ^ 2 * tv_h_sum x) as ->.
  { unfold tv_h_sum. rewrite <- sum4_scal. apply sum4_ext; intros n c h w _.
    simpl. ring. }
  assert (tv_w_sum (scale s x) = s ^ 2 * tv_w_sum x) as ->.
  { unfold tv_w_sum. rewrite <- sum4_scal. apply sum4_ext; intros n c h w _.
    simpl. ring. }
  rewrite !TVLoss_count_h_value, !TVLoss_count_w_value.
  unfold TVLoss_batch_size. simpl. unfold Rdiv. ring.
Qed.

Lemma TVLoss_forward_quadratic_witness :
  exists v,
    TVLoss_forward (TVLoss_init 1) step_1x1x2x2 = ok v /\
    TVLoss_forward (TVLoss_init 1) (scale 3 step_1x1x2x2) = ok (3 ^ 2 * v).
Proof.
  exact (TVLoss_forward_quadratic (TVLoss_init 1) step_1x1x2x2 3 tv_sizes_ok_step).
Defined.

(** X6.  Adding to a batch one number per image and channel (a brightness
    or colour offset) does not change what [TVLoss.forward] returns. *)
Theorem TVLoss_forward_offset_invariant
    (self : TVLoss) (x : tensor) (o : nat -> nat -> R) :
  tv_sizes_ok x ->
  TVLoss_forward self (add_channel_offset o x) = TVLoss_forward self x.
Proof.
  intros _. rewrite !TVLoss_forward_value. f_equal.
  assert (tv_h_sum (add_channel_offset o x) = tv_h_sum x) as ->.
  { unfold tv_h_sum. apply sum4_ext; intros n c h w _. simpl. ring. }
  assert (tv_w_sum (add_channel_offset o x) = tv_w_sum x) as ->.
  { unfold tv_w_sum. apply sum4_ext; intros n c h w _. simpl. ring. }
  rewrite !TVLoss_count_h_value, !TVLoss_count_w_value.
  reflexivity.
Qed.

Lemma TVLoss_forward_offset_invariant_witness :
  TVLoss_forward (TVLoss_init 1)
    (add_channel_offset (fun n c => INR (n + c)) step_1x1x2x2)
  = TVLoss_forward (TVLoss_init 1) step_1x1x2x2.
Proof.
  exact (TVLoss_forward_offset_invariant (TVLoss_init 1) step_1x1x2x2
           (fun n c => INR (n + c)) tv_sizes_ok_step).
Defined.

(** X7.  On a batch with a single row, the height term of
    [TVLoss.forward] is the quotient of two zeros: there is no vertical
    difference to sum ([h_tv] is 0) and the count [count_h] it is divided
    by is 0 as well.  The same holds for the width term on a batch with a
    single column. *)
Theorem TVLoss_single_row_or_column_divides_zero_by_zero (x : tensor) :
  (dim2 (shape x) = 1%nat ->
   TVLoss_h_tv x = ok 0 /\ TVLoss_count_h x = 0%nat) /\
  (dim3 (shape x) = 1%nat ->
   TVLoss_w_tv x = ok 0 /\ TVLoss_count_w x = 0%nat).
Proof.
  split; intros H1.
  - rewrite TVLoss_h_tv_value, TVLoss_count_h_value, H1. split; [|lia].
    f_equal. unfold tv_h_sum. rewrite H1. apply sum4_zero.
    intros n c h w (_ & _ & Hh & _). simpl in Hh. lia.
  - rewrite TVLoss_w_tv_value, TVLoss_count_w_value, H1. split; [|lia].
    f_equal. unfold tv_w_sum. rewrite H1. apply sum4_zero.
    intros n c h w (_ & _ & _ & Hw). simpl in Hw. lia.
Qed.

Lemma TVLoss_single_row_or_column_divides_zero_by_zero_witness :
  TVLoss_h_tv red_ramp_1x3x1x2 = ok 0 /\ TVLoss_count_h red_ramp_1x3x1x2 = 0%nat.
Proof.
  exact (proj1 (TVLoss_single_row_or_column_divides_zero_by_zero red_ramp_1x3x1x2)
           eq_refl).
Defined.

(** ** The function [tv_loss] *)

Lemma py_bound_minus_1 (len : nat) : py_bound len (-1) = (len - 1)%nat.
Proof. unfold py_bound. change (-1 <? 0)%Z with true. lia. Qed.

Lemma tv_loss_value (x : tensor) (beta reg_coeff : R) :
  tv_loss x beta reg_coeff
  = ok (reg_coeff * (tv_sum x beta / INR (numel (shape x)))).
Proof.
  unfold tv_loss, slice2_from, slice2_to, slice3_from, slice3_to.
  rewrite !py_bound_1, !py_bound_minus_1.
  remember (Nat.min 1 (dim2 (shape x))) as lo2 eqn:Hlo2.
  remember (Nat.min 1 (dim3 (shape x))) as lo3 eqn:Hlo3.
  assert (dim2 (shape x) - lo2 = dim2 (shape x) - 1)%nat as Hsz2 by lia.
  assert (dim3 (shape x) - lo3 = dim3 (shape x) - 1)%nat as Hsz3 by lia.
  unfold lift2. simpl.
  rewrite (binop_broadcast _ (slice3 lo3 _ x) _
             (Size (dim0 (shape x)) (dim1 (shape x)) (dim2 (shape x))
                   (dim3 (shape x) - 1)))
    by (simpl; rewrite Hsz3, Nat.sub_0_r; apply broadcast_shapes_same).
  rewrite (binop_broadcast _ (slice2 lo2 _ x) _
             (Size (dim0 (shape x)) (dim1 (shape x)) (dim2 (shape x) - 1)
                   (dim3 (shape x))))
    by (simpl; rewrite Hsz2, Nat.sub_0_r; apply broadcast_shapes_same).
  simpl. rewrite !py_bound_minus_1.
  rewrite (binop_broadcast _ _ _
             (Size (dim0 (shape x)) (dim1 (shape x)) (dim2 (shape x) - 1)
                   (dim3 (shape x) - 1)))
    by (simpl; rewrite !Nat.sub_0_r; apply broadcast_shapes_same).
  simpl. f_equal. unfold tsum, tv_sum, numel. simpl. f_equal. f_equal.
  apply sum4_ext; intros n c h w (Hn & Hc & Hh & Hw). simpl in Hn, Hc, Hh, Hw.
  unfold expand_item, tv_sq_diffs. simpl.
  rewrite ?Hsz2, ?Hsz3, ?Nat.sub_0_r. bidx_simpl.
  assert (h < dim2 (shape x))%nat as Hh' by lia.
  assert (w < dim3 (shape x))%nat as Hw' by lia.
  bidx_simpl.
  replace lo2 with 1%nat by lia. replace lo3 with 1%nat by lia.
  reflexivity.
Qed.

Lemma rpow_nonneg (v beta : R) : 0 <= rpow v beta.
Proof.
  unfold rpow. destruct (Req_dec_T v 0); [destruct (Req_dec_T beta 0); lra|].
  unfold Rpower. left. apply exp_pos.
Qed.

Lemma rpow_0 (beta : R) : beta <> 0 -> rpow 0 beta = 0.
Proof.
  intros Hb. unfold rpow. destruct (Req_dec_T 0 0) as [_|H]; [|contradiction].
  destruct (Req_dec_T beta 0); [contradiction | reflexivity].
Qed.

Lemma rpow_half (v : R) : 0 <= v -> rpow v (1 / 2) = sqrt v.
Proof.
  intros Hv. unfold rpow. destruct (Req_dec_T v 0) as [->|Hnz].
  - destruct (Req_dec_T (1 / 2) 0); [lra|]. symmetry. apply sqrt_0.
  - replace (1 / 2) with (/ 2) by lra. apply Rpower_sqrt. lra.
Qed.

Lemma rpow_scale (s v beta : R) :
  0 < s -> 0 <= v -> rpow (s ^ 2 * v) beta = Rpower s (2 * beta) * rpow v beta.
Proof.
  intros Hs Hv. unfold rpow.
  assert (0 < s ^ 2) as Hs2 by nra.
  destruct (Req_dec_T v 0) as [->|Hnz].
  - rewrite Rmult_0_r. destruct (Req_dec_T 0 0) as [_|H]; [|contradiction].
    destruct (Req_dec_T beta 0) as [->|Hb]; [|ring].
    rewrite Rmult_0_r, Rpower_O by exact Hs. ring.
  - destruct (Req_dec_T (s ^ 2 * v) 0) as [H0|_]; [nra|].
    rewrite <- Rpower_mult_distr by lra.
    f_equal. rewrite <- Rpower_mult. f_equal.
    change 2 with (INR 2). symmetry. apply Rpower_pow, Hs.
Qed.

Lemma tv_sq_diffs_nonneg (x : tensor) (n c h w : nat) : 0 <= tv_sq_diffs x n c h w.
Proof.
  unfold tv_sq_diffs. apply Rplus_le_le_0_compat; apply pow2_ge_0.
Qed.

(** X8.  With the default [beta = 0.5] and [reg_coeff = 5], [tv_loss]
    returns 5 times the sum, over the entries that have a right and a lower
    neighbour, of the square root of the two squared differences added,
    divided by the number of all entries of the batch. *)
Theorem tv_loss_default_is_isotropic_tv (x : tensor) :
  tv_loss_default x
  = ok (5 * (sum4 (Size (dim0 (shape x)) (dim1 (shape x))
                        (dim2 (shape x) - 1) (dim3 (shape x) - 1))
               (fun n c h w => sqrt (tv_sq_diffs x n c h w))
             / INR (dim0 (shape x) * dim1 (shape x) * dim2 (shape x) * dim3 (shape x)))).
Proof.
  unfold tv_loss_default. rewrite tv_loss_value. unfold tv_sum, numel.
  f_equal. f_equal. f_equal.
  apply sum4_ext; intros n c h w _. apply rpow_half, tv_sq_diffs_nonneg.
Qed.

(** X9.  On a batch with a single row or a single column (and at least one
    entry) [tv_loss] returns 0 whatever the entries, the exponent and the
    coefficient: only entries with both a right and a lower neighbour are
    summed, and there is none. *)
Theorem tv_loss_zero_on_single_row_or_column (x : tensor) (beta reg_coeff : R) :
  (0 < numel (shape x))%nat ->
  dim2 (shape x) = 1%nat \/ dim3 (shape x) = 1%nat ->
  tv_loss x beta reg_coeff = ok 0.
Proof.
  intros _ H1. rewrite tv_loss_value. f_equal.
  assert (tv_sum x beta = 0) as ->.
  { unfold tv_sum. apply sum4_zero; intros n c h w (_ & _ & Hh & Hw).
    simpl in Hh, Hw. lia. }
  unfold Rdiv. ring.
Qed.

Lemma tv_loss_zero_on_single_row_or_column_witness :
  tv_loss red_ramp_1x3x1x2 (1 / 2) 5 = ok 0.
Proof.
  apply (tv_loss_zero_on_single_row_or_column red_ramp_1x3x1x2 (1 / 2) 5).
  - vm_compute. lia.
  - left. reflexivity.
Defined.

(** X10.  On a batch with at least one entry, for an exponent and a
    coefficient that are not negative, [tv_loss] returns a value that is
    not negative. *)
Theorem tv_loss_nonneg (x : tensor) (beta reg_coeff : R) :
  (0 < numel (shape x))%nat ->
  0 <= beta -> 0 <= reg_coeff ->
  exists v, tv_loss x beta reg_coeff = ok v /\ 0 <= v.
Proof.
  intros _ _ Hr. eexists. split; [apply tv_loss_value|].
  apply Rmult_le_pos; [exact Hr|].
  apply div_nonneg; [|apply pos_INR].
  apply sum4_nonneg; intros n c h w _. apply rpow_nonneg.
Qed.

Lemma tv_loss_nonneg_witness :
  exists v, tv_loss corner_1x1x2x2 (1 / 2) 5 = ok v /\ 0 <= v.
Proof.
  apply (tv_loss_nonneg corner_1x1x2x2 (1 / 2) 5); [vm_compute; lia | lra | lra].
Defined.

(** X11.  For a positive exponent, [tv_loss] returns 0 on every batch (with
    at least one entry) in which each channel of each image is constant. *)
Theorem tv_loss_zero_on_flat (x : tensor) (beta reg_coeff : R) :
  (0 < numel (shape x))%nat ->
  0 < beta ->
  flat_colour x ->
  tv_loss x beta reg_coeff = ok 0.
Proof.
  intros _ Hb Hflat. rewrite tv_loss_value. f_equal.
  assert (tv_sum x beta = 0) as ->.
  { unfold tv_sum. apply sum4_zero; intros n c h w (Hn & Hc & Hh & Hw).
    simpl in Hn, Hc, Hh, Hw. unfold tv_sq_diffs.
    rewrite (Hflat n c h (1 + w)%nat), (Hflat n c (1 + h)%nat w), (Hflat n c h w)
      by (repeat split; simpl; lia).
    replace ((item x n c 0%nat 0%nat - item x n c 0%nat 0%nat) ^ 2
             + (item x n c 0%nat 0%nat - item x n c 0%nat 0%nat) ^ 2)
      with 0 by ring.
    apply rpow_0. lra. }
  unfold Rdiv. ring.
Qed.

Lemma tv_loss_zero_on_flat_witness :
  tv_loss orange_1x3x2x2 (1 / 2) 5 = ok 0.
Proof.
  apply (tv_loss_zero_on_flat orange_1x3x2x2 (1 / 2) 5);
    [vm_compute; lia | lra | exact flat_colour_orange].
Defined.

(** X12.  Scaling a batch by [s > 0] scales what [tv_loss] returns by
    [s ^ (2 * beta)]: by [s] itself for the default [beta = 0.5]. *)
Theorem tv_loss_scales_with_power (x : tensor) (beta reg_coeff s : R) :
  (0 < numel (shape x))%nat ->
  0 < s ->
  exists v,
    tv_loss x beta reg_coeff = ok v /\
    tv_loss (scale s x) beta reg_coeff = ok (Rpower s (2 * beta) * v) /\
    (beta = 1 / 2 -> tv_loss (scale s x) beta reg_coeff = ok (s * v)).
Proof.
  intros _ Hs. eexists. split; [apply tv_loss_value|].
  assert (tv_loss (scale s x) beta reg_coeff
          = ok (Rpower s (2 * beta)
                * (reg_coeff * (tv_sum x beta / INR (numel (shape x)))))) as E.
  { rewrite tv_loss_value. f_equal.
    change (shape (scale s x)) with (shape x).
    assert (tv_sum (scale s x) beta = Rpower s (2 * beta) * tv_sum x beta) as ->.
    { unfold tv_sum. change (shape (scale s x)) with (shape x).
      rewrite <- sum4_scal. apply sum4_ext; intros n c h w _.
      rewrite <- rpow_scale by (lra || apply tv_sq_diffs_nonneg).
      f_equal. unfold tv_sq_diffs. simpl. ring. }
    unfold Rdiv. ring. }
  split; [exact E|].
  intros ->. rewrite E. f_equal. f_equal.
  replace (2 * (1 / 2)) with 1 by lra. apply Rpower_1, Hs.
Qed.

Lemma tv_loss_scales_with_power_witness :
  exists v,
    tv_loss corner_1x1x2x2 (1 / 2) 5 = ok v /\
    tv_loss (scale 3 corner_1x1x2x2) (1 / 2) 5 = ok (3 * v).
Proof.
  destruct (tv_loss_scales_with_power corner_1x1x2x2 (1 / 2) 5 3)
    as (v & Hv & _ & Hhalf); [vm_compute; lia | lra |].
  exists v. split; [exact Hv | exact (Hhalf eq_refl)].
Defined.

(** ** ColorLoss, continued *)

(** X13.  [ColorLoss.forward] returns a value exactly on batches with three
    channels; on every other channel count the unpacking of the split
    raises ValueError. *)
Theorem ColorLoss_forward_needs_three_channels (x : tensor) :
  ((exists v, ColorLoss_forward x = ok v) <-> dim1 (shape x) = 3%nat) /\
  (ColorLoss_forward x = raise ValueError <-> dim1 (shape x) <> 3%nat).
Proof.
  destruct (Nat.eq_dec (dim1 (shape x)) 3%nat) as [HC|HC].
  - rewrite (ColorLoss_forward_value x HC).
    split; split; intros H; try tauto; try discriminate; eauto.
  - rewrite (ColorLoss_forward_wrong_channels x HC).
    split; split; intros H; try tauto.
    destruct H as [v Hv]. discriminate.
Qed.

Lemma channel_mean_offset (o : nat -> nat -> R) (x : tensor) (n c : nat) :
  (0 < dim2 (shape x) * dim3 (shape x))%nat ->
  channel_mean (add_channel_offset o x) n c = channel_mean x n c + o n c.
Proof.
  intros Hpos. unfold channel_mean. simpl.
  rewrite (rsum_ext _ _
    (fun h => rsum (dim3 (shape x)) (fun w => item x n c h w)
              + INR (dim3 (shape x)) * o n c))
    by (intros h _; rewrite rsum_plus, rsum_const; reflexivity).
  rewrite rsum_plus, rsum_const, <- Rmult_assoc, <- mult_INR.
  rewrite Rdiv_plus_distr. f_equal. apply mean_const, Hpos.
Qed.

Lemma color_value_offset (o : nat -> nat -> R) (x : tensor) :
  color_value (add_channel_offset o x) = color_value x.
Proof.
  unfold color_value. change (shape (add_channel_offset o x)) with (shape x).
  f_equal. apply sum4_ext; intros n c h w (Hn & Hc & Hh & Hw).
  simpl in Hn, Hc, Hh, Hw.
  rewrite !channel_mean_offset by nia.
  simpl. f_equal. ring.
Qed.

(** X14.  Adding to a 3-channel batch one number per image and channel (a
    colour cast) does not change what [ColorLoss.forward] returns: each
    channel is compared with its own mean, not with the other channels. *)
Theorem ColorLoss_forward_blind_to_colour_cast (x : tensor) (o : nat -> nat -> R) :
  dim1 (shape x) = 3%nat ->
  (0 < numel (shape x))%nat ->
  ColorLoss_forward (add_channel_offset o x) = ColorLoss_forward x.
Proof.
  intros HC _. rewrite !ColorLoss_forward_value by exact HC.
  rewrite color_value_offset. reflexivity.
Qed.

Lemma ColorLoss_forward_blind_to_colour_cast_witness :
  ColorLoss_forward
    (add_channel_offset (fun _ c => match c with O => 1 / 2 | _ => 0 end)
       red_ramp_1x3x1x2)
  = ColorLoss_forward red_ramp_1x3x1x2.
Proof.
  apply (ColorLoss_forward_blind_to_colour_cast red_ramp_1x3x1x2);
    [reflexivity | vm_compute; lia].
Defined.

(** X15.  On a 3-channel batch with at least one entry,
    [ColorLoss.forward] returns a value that is not negative. *)
Theorem ColorLoss_forward_nonneg (x : tensor) :
  dim1 (shape x) = 3%nat ->
  (0 < numel (shape x))%nat ->
  exists v, ColorLoss_forward x = ok v /\ 0 <= v.
Proof.
  intros HC _. exists (color_value x). split; [apply ColorLoss_forward_value, HC|].
  unfold color_value. apply div_nonneg; [|apply pos_INR].
  apply sum4_nonneg; intros n c h w _. apply sqrt_pos.
Qed.

Lemma ColorLoss_forward_nonneg_witness :
  exists v, ColorLoss_forward red_ramp_1x3x1x2 = ok v /\ 0 <= v.
Proof.
  apply (ColorLoss_forward_nonneg red_ramp_1x3x1x2); [reflexivity | vm_compute; lia].
Defined.

(** ** ColorLoss1, continued *)

Lemma ColorLoss1_forward_wrong_channels (x y : tensor) :
  dim1 (shape x) <> 3%nat -> ColorLoss1_forward x y = raise ValueError.
Proof.
  intros HC. unfold ColorLoss1_forward, torch_split1.
  rewrite torch_getattr_split.
  destruct (dim1 (shape x)) as [|[|[|[|k]]]]; try reflexivity. contradiction.
Qed.

(** X16.  [ColorLoss1.forward] returns on no input: when the first batch
    does not have three channels the unpacking of its split raises
    ValueError, and when it has, the call of [torch.spiit] raises
    AttributeError. *)
Theorem ColorLoss1_forward_never_returns (x y : tensor) :
  ColorLoss1_forward x y
  = raise (if Nat.eq_dec (dim1 (shape x)) 3%nat
           then AttributeError "spiit" else ValueError).
Proof.
  destruct (Nat.eq_dec (dim1 (shape x)) 3%nat) as [HC|HC].
  - apply ColorLoss1_forward_raises, HC.
  - apply ColorLoss1_forward_wrong_channels, HC.
Qed.

(** ** UnionLoss, continued *)

Lemma union_value_sym (x y : tensor) :
  shape x = shape y -> union_value x y = union_value y x.
Proof.
  intros Hs. unfold union_value. rewrite <- Hs. f_equal. f_equal.
  apply sum4_ext; intros n c h w _.
  rewrite (Rabs_minus_sym (shift_sum x 2 n c h w)),
          (Rabs_minus_sym (shift_sum x 3 n c h w)).
  reflexivity.
Qed.

(** X18.  On batches of one shape [UnionLoss.forward] is symmetric: it
    returns the same value on [(x, y)] and on [(y, x)]. *)
Theorem UnionLoss_forward_symmetric (x y : tensor) :
  shape x = shape y ->
  UnionLoss_forward x y = UnionLoss_forward y x.
Proof.
  intros Hs. rewrite (UnionLoss_forward_value x y Hs).
  rewrite (UnionLoss_forward_value y x (eq_sym Hs)).
  f_equal. apply union_value_sym, Hs.
Qed.

Lemma UnionLoss_forward_symmetric_witness :
  UnionLoss_forward ramp_1x3x4x4 grey_1x3x4x4
  = UnionLoss_forward grey_1x3x4x4 ramp_1x3x4x4.
Proof.
  exact (UnionLoss_forward_symmetric ramp_1x3x4x4 grey_1x3x4x4 eq_refl).
Defined.

(** X19.  On batches of one shape with at least one entry
    [UnionLoss.forward] returns a value that is not negative. *)
Theorem UnionLoss_forward_nonneg (x y : tensor) :
  shape x = shape y ->
  (0 < numel (shape x))%nat ->
  exists v, UnionLoss_forward x y = ok v /\ 0 <= v.
Proof.
  intros Hs _. exists (union_value x y).
  split; [apply UnionLoss_forward_value, Hs|].
  unfold union_value. apply div_nonneg; [|lra].
  apply div_nonneg; [|apply pos_INR].
  apply sum4_nonneg; intros n c h w _.
  apply Rplus_le_le_0_compat; (apply div_nonneg; [apply Rabs_pos | lra]).
Qed.

Lemma UnionLoss_forward_nonneg_witness :
  exists v, UnionLoss_forward ramp_1x3x4x4 grey_1x3x4x4 = ok v /\ 0 <= v.
Proof.
  apply (UnionLoss_forward_nonneg ramp_1x3x4x4 grey_1x3x4x4);
    [reflexivity | vm_compute; lia].
Defined.

Lemma shift_sum_offset (o : nat -> nat -> R) (t : tensor) (dims n c h w : nat) :
  (2 <= dims)%nat ->
  shift_sum (add_channel_offset o t) dims n c h w = shift_sum t dims n c h w.
Proof.
  intros Hd. rewrite !shift_sum_unfold.
  destruct dims as [|[|[|d]]]; try lia; simpl;
    repeat match goal with
           | |- context [Rabs (?a + ?v - (?b + ?v))] =>
               replace (a + v - (b + v)) with (a - b) by ring
           end; reflexivity.
Qed.

(** X20.  Adding to either batch one number per image and channel (a
    brightness or colour offset) does not change what [UnionLoss.forward]
    returns on batches of one shape: only differences within a channel
    enter. *)
Theorem UnionLoss_forward_offset_invariant
    (x y : tensor) (ox oy : nat -> nat -> R) :
  shape x = shape y ->
  (0 < numel (shape x))%nat ->
  UnionLoss_forward (add_channel_offset ox x) (add_channel_offset oy y)
  = UnionLoss_forward x y.
Proof.
  intros Hs _.
  rewrite (UnionLoss_forward_value x y Hs).
  rewrite (UnionLoss_forward_value (add_channel_offset ox x)
             (add_channel_offset oy y) Hs).
  f_equal. unfold union_value.
  change (shape (add_channel_offset ox x)) with (shape x).
  f_equal. f_equal. apply sum4_ext; intros n c h w _.
  rewrite !shift_sum_offset by lia. reflexivity.
Qed.

Lemma UnionLoss_forward_offset_invariant_witness :
  UnionLoss_forward (add_channel_offset (fun _ c => INR c) ramp_1x3x4x4)
                    (add_channel_offset (fun _ _ => 1 / 4) grey_1x3x4x4)
  = UnionLoss_forward ramp_1x3x4x4 grey_1x3x4x4.
Proof.
  apply (UnionLoss_forward_offset_invariant ramp_1x3x4x4 grey_1x3x4x4);
    [reflexivity | vm_compute; lia].
Defined.

Lemma roll_idx_multiple (len k i : nat) :
  (i < len)%nat -> (k mod len = 0)%nat -> roll_idx len k i = i.
Proof.
  intros Hi Hk. unfold roll_idx. rewrite Hk, Nat.sub_0_r.
  replace (i + len)%nat with (i + 1 * len)%nat by lia.
  rewrite Nat.Div0.mod_add. apply Nat.mod_small, Hi.
Qed.

Lemma shift_sum_short_axis (t : tensor) (dims n c h w : nat) :
  in_range (shape t) n c h w ->
  (dims = 2%nat /\ (dim2 (shape t) <= 2)%nat) \/
  (dims = 3%nat /\ (dim3 (shape t) <= 2)%nat) ->
  shift_sum t dims n c h w = 0.
Proof.
  intros (Hn & Hc & Hh & Hw) Hshort. rewrite shift_sum_unfold.
  assert (forall k, (k mod 2 = 0)%nat ->
                    item (torch_roll t k dims) n c h w = item t n c h w) as Hroll.
  { intros k Hk. destruct Hshort as [[-> Hle] | [-> Hle]]; simpl.
    - rewrite roll_idx_multiple; [reflexivity | exact Hh |].
      destruct (dim2 (shape t)) as [|[|[|m]]]; try lia;
        first [apply Nat.mod_1_r | exact Hk].
    - rewrite roll_idx_multiple; [reflexivity | exact Hw |].
      destruct (dim3 (shape t)) as [|[|[|m]]]; try lia;
        first [apply Nat.mod_1_r | exact Hk]. }
  rewrite !Hroll by reflexivity.
  rewrite !Rminus_diag, Rabs_R0. ring.
Qed.

(** X21.  A shift by an even distance along an axis of one or two entries
    is the identity, and all seven distances are even: on batches of one
    shape with at most two rows and at most two columns [UnionLoss.forward]
    returns 0 whatever the two batches hold. *)
Theorem UnionLoss_forward_blind_on_tiny_images (x y : tensor) :
  shape x = shape y ->
  (0 < numel (shape x))%nat ->
  (dim2 (shape x) <= 2)%nat -> (dim3 (shape x) <= 2)%nat ->
  UnionLoss_forward x y = ok 0.
Proof.
  intros Hs _ HH HW. rewrite (UnionLoss_forward_value x y Hs). f_equal.
  unfold union_value.
  rewrite sum4_zero; [unfold Rdiv; ring|].
  intros n c h w Hr.
  rewrite !(shift_sum_short_axis x) by (try exact Hr; tauto).
  rewrite !(shift_sum_short_axis y) by (rewrite <- Hs; try exact Hr; tauto).
  rewrite Rminus_diag, Rabs_R0. unfold Rdiv. ring.
Qed.

Lemma UnionLoss_forward_blind_on_tiny_images_witness :
  UnionLoss_forward ramp_1x3x2x2 black_1x3x2x2 = ok 0.
Proof.
  apply (UnionLoss_forward_blind_on_tiny_images ramp_1x3x2x2 black_1x3x2x2);
    [reflexivity | vm_compute; lia | simpl; lia | simpl; lia].
Defined.

(** ** MyLoss, continued *)

(** X22.  With the modules [__init__] builds, on batches of one shape with
    at least one entry and an SSIM index [s] between 0 and 1,
    [MyLoss.forward] returns a loss between the Charbonnier term and that
    term plus 0.01; the loss is at least [1e-3], so it is never 0, not even
    on identical batches. *)
Theorem MyLoss_forward_bounds
    (SSIM : tensor -> tensor -> result R) (x y : tensor) (epoch : Z) (s : R) :
  shape x = shape y ->
  (0 < numel (shape x))%nat ->
  SSIM x y = ok s ->
  0 <= s <= 1 ->
  exists loss,
    fst <$> MyLoss_forward (MyLoss_init SSIM) x y epoch = ok loss /\
    1 / 1000 <= loss /\
    charbonnier_value (1 / 1000) x y <= loss <= charbonnier_value (1 / 1000) x y + 1 / 100.
Proof.
  intros Hshape Hpos Hs [Hs0 Hs1].
  pose proof (CharbonnierLoss_forward_same_shape CharbonnierLoss_default x y Hshape)
    as Hl1.
  rewrite eps_default in Hl1.
  pose proof (charbonnier_value_ge (1 / 1000) x y ltac:(lra) Hpos) as Hge.
  exists (charbonnier_value (1 / 1000) x y + 1 / 100 * (1 - s)).
  rewrite (MyLoss_forward_ok (MyLoss_init SSIM) x y epoch _ s Hl1 Hs).
  split; [reflexivity|]. lra.
Qed.

Lemma MyLoss_forward_bounds_witness :
  exists loss,
    fst <$> MyLoss_forward (MyLoss_init SSIM_half) grey_1x3x2x2 black_1x3x2x2 1
    = ok loss /\
    1 / 1000 <= loss /\
    charbonnier_value (1 / 1000) grey_1x3x2x2 black_1x3x2x2 <= loss
    <= charbonnier_value (1 / 1000) grey_1x3x2x2 black_1x3x2x2 + 1 / 100.
Proof.
  apply (MyLoss_forward_bounds SSIM_half grey_1x3x2x2 black_1x3x2x2 1 (1 / 2));
    [reflexivity | rewrite numel_grey; lia | reflexivity | lra].
Defined.

(** X23.  When the shapes of the two batches do not broadcast together,
    [MyLoss.forward] raises the RuntimeError of the Charbonnier term for
    every epoch, whatever the SSIM module would do: that module is not
    reached and nothing is printed. *)
Theorem MyLoss_forward_raises_on_incompatible_shapes
    (self : MyLoss) (x y : tensor) (epoch : Z) :
  ~ broadcastable (shape x) (shape y) ->
  MyLoss_forward self x y epoch = raise RuntimeError.
Proof.
  intros Hnb. unfold MyLoss_forward.
  destruct (broadcast_shapes_spec (shape x) (shape y)) as [[Hb _] | [_ Hr]];
    [contradiction|].
  rewrite (CharbonnierLoss_forward_raise (l1_module self) x y _ Hr). reflexivity.
Qed.

Lemma MyLoss_forward_raises_on_incompatible_shapes_witness :
  MyLoss_forward (MyLoss_init SSIM_half) black_2x3x2x2 grey_1x3x4x4 1
  = raise RuntimeError.
Proof.
  apply (MyLoss_forward_raises_on_incompatible_shapes (MyLoss_init SSIM_half)
           black_2x3x2x2 grey_1x3x4x4 1).
  unfold broadcastable, compatible. simpl. lia.
Defined.

(** ** MixLoss *)




(** ** VGGPerceptualLoss *)

Lemma broadcast_shapes_buffer (s : size) (v0 v1 v2 : R) :
  dim1 s = 3%nat -> broadcast_shapes s (shape (channel_buffer v0 v1 v2)) = ok s.
Proof.
  intros HC. unfold broadcast_shapes. simpl.
  rewrite HC, !broadcast_dim_1_r, broadcast_dim_same. simpl.
  destruct s; simpl in *; subst; reflexivity.
Qed.

Lemma normalise_three_channels (t m s : tensor) :
  dim1 (shape t) = 3%nat ->
  shape m = Size 1 3 1 1 -> shape s = Size 1 3 1 1 ->
  exists t', ((ok t - ok m) / ok s)%T = ok t' /\ shape t' = shape t.
Proof.
  intros HC Hm Hs. unfold lift2. simpl.
  assert (broadcast_shapes (shape t) (Size 1 3 1 1) = ok (shape t)) as Hb
    by (apply (broadcast_shapes_buffer (shape t) 0 0 0 HC)).
  rewrite (binop_broadcast _ t m (shape t)) by (rewrite Hm; exact Hb).
  simpl.
  rewrite (binop_broadcast _ _ s (shape t)) by (rewrite Hs; exact Hb).
  eexists. split; reflexivity.
Qed.




Lemma l1_loss_self (t : tensor) : l1_loss t t = ok 0.
Proof.
  unfold l1_loss, lift2. simpl. rewrite binop_same_shape by reflexivity.
  simpl. f_equal. unfold tmean, tsum. simpl.
  rewrite sum4_zero; [unfold Rdiv; ring|].
  intros n c h w _. rewrite Rminus_diag. apply Rabs_R0.
Qed.

Lemma gram_defined (t : tensor) :
  (0 < numel (shape t))%nat ->
  exists a g, reshape_flat t = ok a /\ matmul a (permute_021 a) = ok g.
Proof.
  intros Hpos. unfold reshape_flat.
  destruct (Nat.eqb_spec (dim0 (shape t) * dim1 (shape t)) 0) as [E|_].
  - unfold numel in Hpos. rewrite E in Hpos. simpl in Hpos. lia.
  - eexists. eexists. split; [reflexivity|].
    unfold matmul. simpl. rewrite Nat.eqb_refl. simpl.
    rewrite broadcast_dim_same. reflexivity.
Qed.

Lemma VGGPerceptualLoss_loop_identical
    (bs : list (tensor -> result tensor)) (feature_layers style_layers : list Z) :
  forall (i : Z) (loss : R) (x : tensor),
    chain_returns bs x ->
    VGGPerceptualLoss_loop bs i feature_layers style_layers loss x x = ok loss.
Proof.
  induction bs as [|block rest IH]; intros i loss x Hchain; [reflexivity|].
  destruct Hchain as (x' & Hx' & Hpos' & Hrest).
  cbn [VGGPerceptualLoss_loop]. rewrite Hx'. simpl.
  assert ((if bool_decide (i ∈ feature_layers)
           then l1_loss x' x' ≫= (fun l => ok (loss + l))
           else ok loss) = ok loss) as ->.
  { destruct (bool_decide (i ∈ feature_layers)); [|reflexivity].
    rewrite l1_loss_self. simpl. f_equal. ring. }
  simpl.
  destruct (bool_decide (i ∈ style_layers)).
  - destruct (gram_defined x' Hpos') as (a & g & Ha & Hg).
    rewrite Ha. simpl. rewrite Hg. simpl. rewrite l1_loss_self. simpl.
    rewrite Rplus_0_r. apply IH, Hrest.
  - simpl. apply IH, Hrest.
Qed.

(** X27.  Take a batch [x] of one or three channels and suppose that, from
    the batch the loop starts with (any batch of the shape of [x] with
    three channels, resized when [resize] is set), the four pretrained
    blocks run one after the other all return, each a batch with at least
    one entry.  Then [VGGPerceptualLoss.forward] on [(x, x)] returns 0,
    whichever feature and style layers are selected. *)
Theorem VGGPerceptualLoss_forward_zero_on_identical
    (b0 b1 b2 b3 interp : tensor -> result tensor) (rs : bool)
    (x : tensor) (feature_layers style_layers : list Z) :
  (forall t,
      shape t = Size (dim0 (shape x)) 3 (dim2 (shape x)) (dim3 (shape x)) ->
      if rs
      then exists r, interp t = ok r /\ chain_returns [b0; b1; b2; b3] r
      else chain_returns [b0; b1; b2; b3] t) ->
  dim1 (shape x) = 1%nat \/ dim1 (shape x) = 3%nat ->
  VGGPerceptualLoss_forward (VGGPerceptualLoss_init b0 b1 b2 b3 interp rs)
    x x feature_layers style_layers
  = ok 0.
Proof.
  intros Hentry HC. unfold VGGPerceptualLoss_forward.
  cbn [mean std resize transform blocks VGGPerceptualLoss_init].
  remember [b0; b1; b2; b3] as bs eqn:Hbs.
  assert (exists x3, (if negb (dim1 (shape x) =? 3)%nat
                      then (repeat_channels x, repeat_channels x) else (x, x))
                     = (x3, x3)
                     /\ shape x3
                        = Size (dim0 (shape x)) 3 (dim2 (shape x)) (dim3 (shape x)))
    as (x3 & -> & Hsx3).
  { destruct (Nat.eqb_spec (dim1 (shape x)) 3) as [E|E]; cbn [negb].
    - exists x. split; [reflexivity|]. rewrite <- E. destruct (shape x); reflexivity.
    - exists (repeat_channels x). destruct HC as [HC|HC]; [|contradiction].
      split; [reflexivity|]. simpl. rewrite HC. reflexivity. }
  destruct (normalise_three_channels x3
              (channel_buffer (485 / 1000) (456 / 1000) (406 / 1000))
              (channel_buffer (229 / 1000) (224 / 1000) (225 / 1000)))
    as (t & Ht & Hst); [rewrite Hsx3; reflexivity | reflexivity | reflexivity |].
  rewrite Ht. simpl.
  specialize (Hentry t (eq_trans Hst Hsx3)).
  destruct rs.
  - destruct Hentry as (r & Hr & Hchain). rewrite Hr. simpl.
    apply VGGPerceptualLoss_loop_identical, Hchain.
  - simpl. apply VGGPerceptualLoss_loop_identical, Hentry.
Qed.

Lemma VGGPerceptualLoss_forward_zero_on_identical_witness :
  VGGPerceptualLoss_forward VGGPerceptualLoss_widening
    grey_1x1x2x2 grey_1x1x2x2 [0; 1; 2; 3]%Z [2]%Z
  = ok 0.
Proof.
  apply (VGGPerceptualLoss_forward_zero_on_identical
           (widen_block 3 4) (widen_block 4 6) (widen_block 6 8) (widen_block 8 8)
           resize_2x2 true grey_1x1x2x2 [0; 1; 2; 3]%Z [2]%Z).
  - intros t Ht. eexists. split; [reflexivity|].
    unfold chain_returns, widen_block. simpl. rewrite Ht. simpl.
    repeat (eexists; split; [reflexivity | split; [vm_compute; lia|]]).
    exact I.
  - left. reflexivity.
Defined.
